(** * nappo: multi-repository NuGet package search and version resolution

    A shallow embedding of [nappo.py] and the properties of its search,
    aggregation and download-selection code.

    Python [str] values are modelled by [string] (the UTF-8 bytes of the
    text): equality, [startswith], [endswith], slicing off a final ASCII
    character, concatenation and the code-point order used by [sorted] all
    agree with their byte-wise counterparts on UTF-8. *)

From Stdlib Require Import String Ascii List ZArith Lia Bool Arith.
From Stdlib Require Import Permutation Sorted.
Import ListNotations.

Set Warnings "-register-all".

Local Open Scope string_scope.
Local Open Scope list_scope.

(** ** Python string primitives used by the program *)

Module PyStr.

(** [s.startswith(pre)] *)
Definition startswith (s pre : string) : bool := String.prefix pre s.

(** [s.endswith(suf)] *)
Definition endswith (s suf : string) : bool :=
  Nat.leb (String.length suf) (String.length s)
  && String.eqb
       (String.substring (String.length s - String.length suf)
                         (String.length suf) s)
       suf.

(** [s[:-1]]: everything but the last character (the empty string stays
    empty). *)
Definition drop_last (s : string) : string :=
  String.substring 0 (String.length s - 1) s.

(** ASCII case folding of one character. *)
Definition lower_ascii (c : ascii) : ascii :=
  let n := nat_of_ascii c in
  if Nat.leb 65 n && Nat.leb n 90 then ascii_of_nat (n + 32) else c.

(** [s.lower()] on ASCII text; characters outside [A-Z] are unchanged.
    Package identifiers and version strings are ASCII. *)
Fixpoint lower (s : string) : string :=
  match s with
  | EmptyString => EmptyString
  | String c rest => String (lower_ascii c) (lower rest)
  end.

(** [bool(s)] for a string: non-empty. *)
Definition nonempty (s : string) : bool :=
  match s with EmptyString => false | _ => true end.

End PyStr.

(** ** [version_matches] (nappo.py, lines 239-241) *)

Definition version_matches (version exact_or_pattern : string) : bool :=
  String.eqb version exact_or_pattern
  || (PyStr.endswith exact_or_pattern "*"
      && PyStr.startswith version (PyStr.drop_last exact_or_pattern)).

(** ** Values returned by [json.load]

    Objects are association lists in document order and [dict_get] reads the
    first binding of a key.  Numbers are the integers; non-integer numbers
    are not part of this model. *)

Inductive json : Type :=
| JNull
| JBool (b : bool)
| JNum (z : Z)
| JStr (s : string)
| JArr (items : list json)
| JObj (fields : list (string * json)).

(** ** Exceptions and the result of a computation that may raise *)

Inductive exn : Type :=
| AssertionError
| KeyError
| TypeError
| AttributeError
| UnboundLocalError
| NameError
| IndexError
| JSONDecodeError
| InvalidVersion.

Inductive result (A : Type) : Type :=
| Ok (a : A)
| Raise (e : exn).

Arguments Ok {A} a.
Arguments Raise {A} e.

Definition rbind {A B : Type} (r : result A) (k : A -> result B) : result B :=
  match r with
  | Ok a => k a
  | Raise e => Raise e
  end.

Notation "'let*' x ':=' r 'in' k" := (rbind r (fun x => k))
  (at level 10, x name, r at level 100, k at level 200).

(** [[f(x) for x in l]], evaluated left to right. *)
Fixpoint mapM {A B : Type} (f : A -> result B) (l : list A)
  : result (list B) :=
  match l with
  | [] => Ok []
  | x :: rest =>
      let* y := f x in
      let* ys := mapM f rest in
      Ok (y :: ys)
  end.

(** ** Dynamically typed operations on JSON values *)

Module Py.

(** [bool(j)] *)
Definition truthy (j : json) : bool :=
  match j with
  | JNull => false
  | JBool b => b
  | JNum z => negb (Z.eqb z 0)
  | JStr s => PyStr.nonempty s
  | JArr items => match items with [] => false | _ => true end
  | JObj fields => match fields with [] => false | _ => true end
  end.

Fixpoint dict_get (fields : list (string * json)) (k : string)
  : option json :=
  match fields with
  | [] => None
  | (k', v) :: rest => if String.eqb k' k then Some v else dict_get rest k
  end.

(** [j[k]] for a string key [k]: only a dict can be subscripted by a
    string. *)
Definition getitem (j : json) (k : string) : result json :=
  match j with
  | JObj fields =>
      match dict_get fields k with
      | Some v => Ok v
      | None => Raise KeyError
      end
  | _ => Raise TypeError
  end.

(** The elements produced by [for x in j]: the items of a list, the keys
    of a dict, the characters of a string (here its bytes: the program
    subscripts every element with a string key, which raises on any
    string). *)
Definition iter (j : json) : result (list json) :=
  match j with
  | JArr items => Ok items
  | JObj fields => Ok (map (fun kv => JStr (fst kv)) fields)
  | JStr s =>
      Ok (map (fun c => JStr (String c EmptyString))
            (list_ascii_of_string s))
  | _ => Raise TypeError
  end.

(** [j.startswith(pre)]: only [str] has the method. *)
Definition startswith (j : json) (pre : string) : result bool :=
  match j with
  | JStr s => Ok (PyStr.startswith s pre)
  | _ => Raise AttributeError
  end.

Definition as_int (j : json) : option Z :=
  match j with
  | JNum z => Some z
  | JBool b => Some (if b then 1%Z else 0%Z)
  | _ => None
  end.

(** [a < b] between two sort keys: strings compare by code point,
    integers (and booleans) by value, a string and a number do not
    compare.  Lists, which Python orders element-wise, are treated as
    unordered here. *)
Definition lt (a b : json) : result bool :=
  match a, b with
  | JStr s, JStr t => Ok (String.ltb s t)
  | _, _ =>
      match as_int a, as_int b with
      | Some x, Some y => Ok (Z.ltb x y)
      | _, _ => Raise TypeError
      end
  end.

(** The stable sort behind [sorted(l, key=...)] on the decorated list of
    (key, element) pairs: [insert] puts [x] in front of the first element
    that is not smaller, so equal keys keep their order.  For keys ordered
    by a strict weak order the stable ascending rearrangement is unique,
    whichever sorting algorithm produces it. *)
Section Sort.
Context {K A : Type} (key_lt : K -> K -> result bool).

Fixpoint insert (x : K * A) (l : list (K * A)) : result (list (K * A)) :=
  match l with
  | [] => Ok [x]
  | y :: rest =>
      let* smaller := key_lt (fst y) (fst x) in
      if (smaller : bool) then
        let* rest' := insert x rest in Ok (y :: rest')
      else Ok (x :: y :: rest)
  end.

Fixpoint sort_pairs (l : list (K * A)) : result (list (K * A)) :=
  match l with
  | [] => Ok []
  | x :: rest => let* sorted_rest := sort_pairs rest in insert x sorted_rest
  end.

(** [sorted(l, key=key)]: the keys are computed first, left to right;
    then the decorated list is sorted and the keys dropped. *)
Definition sorted (key : A -> result K) (l : list A) : result (list A) :=
  let* keys := mapM key l in
  let* s := sort_pairs (combine keys l) in
  Ok (map snd s).
End Sort.

End Py.

(** ** External collaborators *)

(** [packaging.version], a library the program imports: [parse] turns a
    version string into a [Version] object or raises [InvalidVersion]
    ([None] here); [Version] objects are compared with [<]. *)
Class Packaging : Type := {
  Version : Type;
  parse : string -> option Version;
  version_lt : Version -> Version -> bool
}.

(** What [urllib.request.urlopen] followed by [json.load] does with one
    request.  Exceptions other than these ([ValueError] for a URL without
    a scheme, a connection reset while reading) are not modelled; like
    [JSONDecodeError] they would pass through [get_json]. *)
Inductive response : Type :=
| RespJSON (j : json)          (* success status, body accepted by json.load *)
| RespURLError                 (* urllib.error.URLError: transport failure *)
| RespHTTPError (status : Z)   (* urllib.error.HTTPError: non-2xx status *)
| RespMalformedJSON.           (* json.JSONDecodeError raised by json.load *)

(** The requests sent so far, most recent first. *)
Definition history : Type := list string.

(** The network answers a request according to the URL and to what was
    requested before. *)
Definition network : Type := history -> string -> response.

(** Computations that talk to the network and may raise. *)
Definition M (A : Type) : Type := history -> result A * history.

Definition ret {A : Type} (a : A) : M A := fun h => (Ok a, h).

Definition raise {A : Type} (e : exn) : M A := fun h => (Raise e, h).

Definition bind {A B : Type} (m : M A) (k : A -> M B) : M B :=
  fun h =>
    match m h with
    | (Ok a, h') => k a h'
    | (Raise e, h') => (Raise e, h')
    end.

Definition lift {A : Type} (r : result A) : M A := fun h => (r, h).

Notation "'do' x '<-' m ';' k" := (bind m (fun x => k))
  (at level 10, x name, m at level 100, k at level 200).

(** [assert b] *)
Definition py_assert (b : bool) : M unit :=
  if b then ret tt else raise AssertionError.

(** ** The program *)

(** [Package = namedtuple('Package', ['name', 'version', 'repository'])] *)
Record Package : Type := mkPackage {
  name : string;
  version : string;
  repository : string
}.

(** [args.package_version or None] (lines 101 and 147): the empty string and
    [None] both become [None]. *)
Definition or_none (package_version : option string) : option string :=
  match package_version with
  | Some s => if PyStr.nonempty s then Some s else None
  | None => None
  end.

Section Nappo.

Context {pkg : Packaging}.

(** [str(j)] as used by an f-string field; only its value on strings is
    fixed here. *)
Variable py_str : json -> string.

Variable net : network.

(** [f'{j}'] *)
Definition fstr (j : json) : string :=
  match j with
  | JStr s => s
  | _ => py_str j
  end.

(** [get_json] (lines 229-234): only [HTTPError] and [URLError] are
    caught. *)
Definition get_json (url : string) : M json :=
  fun h =>
    (match net h url with
     | RespJSON j => Ok j
     | RespURLError => Ok JNull
     | RespHTTPError _ => Ok JNull
     | RespMalformedJSON => Raise JSONDecodeError
     end, url :: h).

(** [version_sort_key] (lines 236-237); [parse] needs a string. *)
Definition version_sort_key (v : json) : result Version :=
  match v with
  | JStr s =>
      match parse s with
      | Some k => Ok k
      | None => Raise InvalidVersion
      end
  | _ => Raise TypeError
  end.

(** [sorted(l, key=lambda p: version_sort_key(p.version))] *)
Definition sorted_by_version (l : list Package) : result (list Package) :=
  Py.sorted (fun a b => Ok (version_lt a b))
            (fun p => version_sort_key (JStr (version p))) l.

(** The service lookup loop (lines 171-174 and 119-122).  The variable is
    declared without a value, so it is unbound ([None] here) until a
    resource matches; every later match overwrites it. *)
Fixpoint service_loop (type_prefix : string) (resources : list json)
                      (service_url : option json)
  : result (option json) :=
  match resources with
  | [] => Ok service_url
  | r :: rest =>
      let* ty := Py.getitem r "@type" in
      let* found := Py.startswith ty type_prefix in
      if (found : bool) then
        let* id := Py.getitem r "@id" in
        service_loop type_prefix rest (Some id)
      else service_loop type_prefix rest service_url
  end.

(** Lines 170-174 (and 118-122): the value of the service variable after
    the loop over [j['resources']]. *)
Definition resolve_endpoint (j : json) (type_prefix : string)
  : result (option json) :=
  let* resources := Py.getitem j "resources" in
  let* rs := Py.iter resources in
  service_loop type_prefix rs None.

(** [version_matches] applied to a JSON value: [==] is false on a
    non-string and [startswith] is then looked up on it. *)
Definition version_matches_value (v : json) (exact_or_pattern : string)
  : result bool :=
  match v with
  | JStr s => Ok (version_matches s exact_or_pattern)
  | _ =>
      if PyStr.endswith exact_or_pattern "*" then Raise AttributeError
      else Ok false
  end.

(** [Package(f'{version["@id"]}', f'{version["version"]}', repository_url)] *)
Definition make_package (repository_url : string) (entry : json)
  : result Package :=
  let* id := Py.getitem entry "@id" in
  let* v := Py.getitem entry "version" in
  Ok (mkPackage (fstr id) (fstr v) repository_url).

(** The inner loop (lines 197-204) over the sorted version entries. *)
Fixpoint emit_versions (repository_url : string)
                       (package_version : option string)
                       (versions : list json) (acc : list Package)
  : result (list Package) :=
  match versions with
  | [] => Ok acc
  | entry :: rest =>
      (* [if package_version:] holds when [or_none] keeps a pattern *)
      match or_none package_version with
      | Some pattern =>
          let* v := Py.getitem entry "version" in
          let* m := version_matches_value v pattern in
          if (m : bool) then
            let* p := make_package repository_url entry in
            emit_versions repository_url package_version rest (acc ++ [p])
          else emit_versions repository_url package_version rest acc
      | None =>
          let* p := make_package repository_url entry in
          emit_versions repository_url package_version rest (acc ++ [p])
      end
  end.

(** The outer loop (lines 194-204) over the package entries sorted by
    id. *)
Fixpoint emit_packages (repository_url : string)
                       (package_version : option string)
                       (packages : list json) (acc : list Package)
  : result (list Package) :=
  match packages with
  | [] => Ok acc
  | package :: rest =>
      let* versions := Py.getitem package "versions" in
      let* vs := Py.iter versions in
      let* sorted_vs :=
        Py.sorted (fun a b => Ok (version_lt a b))
                  (fun v => let* s := Py.getitem v "version" in
                            version_sort_key s)
                  vs in
      let* acc' :=
        emit_versions repository_url package_version sorted_vs acc in
      emit_packages repository_url package_version rest acc'
  end.

(** Lines 191-206: the packages read from the search result [j]. *)
Definition collect (j : json) (repository_url : string)
                   (package_version : option string)
  : result (list Package) :=
  let* data := Py.getitem j "data" in
  let* ds := Py.iter data in
  let* sorted_ds := Py.sorted Py.lt (fun p => Py.getitem p "id") ds in
  emit_packages repository_url package_version sorted_ds [].

(** The three assertions (lines 162-164). *)
Definition check_arguments (package_name package_version : option string)
  : M string :=
  match package_name with
  | None => raise AssertionError
  | Some n =>
      do _ <- py_assert (PyStr.nonempty n);
      do _ <- py_assert
                (match package_version with
                 | Some v => PyStr.nonempty v
                 | None => true
                 end);
      ret n
  end.

(** The f-string of line 182:
    [f'{search_service_url}?q={package_name}&prerelease=true&semVerLevel=2.0.0'] *)
Definition search_string (search_service_url : json) (package_name : string)
  : string :=
  (fstr search_service_url ++ "?q=" ++ package_name
   ++ "&prerelease=true&semVerLevel=2.0.0")%string.

(** Lines 166-206, after the assertions. *)
Definition search_body (repository_url package_name : string)
                       (package_version : option string)
  : M (list Package) :=
  do j <- get_json repository_url;
  if negb (Py.truthy j) then ret []
  else
    do service <- lift (resolve_endpoint j "SearchQueryService/3.0");
    match service with
    | None => raise UnboundLocalError
    | Some search_service_url =>
        if negb (Py.truthy search_service_url) then ret []
        else
          do j' <- get_json (search_string search_service_url package_name);
          if negb (Py.truthy j') then ret []
          else lift (collect j' repository_url package_version)
    end.

(** [package_search] (lines 161-206). *)
Definition package_search (repository_url : string)
                          (package_name package_version : option string)
  : M (list Package) :=
  do n <- check_arguments package_name package_version;
  search_body repository_url n package_version.

(** The accumulation loop (lines 105-107 and 151-154). *)
Fixpoint search_loop (repository_urls : list string)
                     (package_name package_version : option string)
                     (results : list Package)
  : M (list Package) :=
  match repository_urls with
  | [] => ret results
  | repo :: rest =>
      do found <- package_search repo package_name package_version;
      search_loop rest package_name package_version (results ++ found)
  end.

(** [search_command] (lines 145-159) on the repository list computed from
    the arguments; the result is the list of packages it prints, in
    order. *)
Definition search_command (repository_urls : list string)
                          (package_name : string)
                          (package_version : option string)
  : M (list Package) :=
  do results <- search_loop repository_urls (Some package_name)
                            (or_none package_version) [];
  lift (sorted_by_version results).

(** Lines 110-113: sort when there is more than one package, then take
    [packages[0]]. *)
Definition select_for_download (packages : list Package) : result Package :=
  let* packages' :=
    if Nat.ltb 1 (List.length packages) then sorted_by_version packages
    else Ok packages in
  match packages' with
  | [] => Raise IndexError
  | package :: _ => Ok package
  end.

(** The f-string of line 130. *)
Definition download_url (content_service_url : json) (package : Package)
  : string :=
  (fstr content_service_url ++ "/" ++ name package ++ "/" ++ version package
   ++ "/" ++ PyStr.lower (name package) ++ "."
   ++ PyStr.lower (version package) ++ ".nupkg")%string.

(** Lines 117-130: the URL built for an already selected package.  The
    message of line 125 formats [repository_url], a name that is not
    defined in [download_command]. *)
Definition content_url (package : Package) : M string :=
  do j <- get_json (repository package);
  do service <- lift (resolve_endpoint j "PackageBaseAddress/3.0");
  match service with
  | None => raise UnboundLocalError
  | Some content_service_url =>
      if negb (Py.truthy content_service_url) then raise NameError
      else ret (download_url content_service_url package)
  end.

(** [download_command] (lines 99-139) up to the URL handed to
    [urlretrieve]. *)
Definition download_command (repository_urls : list string)
                            (package_name : string)
                            (package_version : option string)
  : M string :=
  do packages <- search_loop repository_urls (Some package_name)
                             (or_none package_version) [];
  do package <- lift (select_for_download packages);
  content_url package.

End Nappo.

(** ** The version resolver of the specification *)

Module VersionResolver.

(** A pre-release identifier. *)
Inductive ident : Type :=
| INum (n : N)
| IAlpha (s : string).

Record VersionKey : Type := mkKey {
  release : list N;
  prerelease : option (list ident)
}.

Definition is_digit (c : ascii) : bool :=
  let n := nat_of_ascii c in Nat.leb 48 n && Nat.leb n 57.

Fixpoint all_digits (s : string) : bool :=
  match s with
  | EmptyString => true
  | String c rest => is_digit c && all_digits rest
  end.

Fixpoint decimal (acc : N) (s : string) : N :=
  match s with
  | EmptyString => acc
  | String c rest => decimal (10 * acc + (N_of_ascii c - 48))%N rest
  end.

(** A non-empty run of digits read as a number. *)
Definition numeric (s : string) : option N :=
  if PyStr.nonempty s && all_digits s then Some (decimal 0%N s) else None.

(** The text before the first [sep] and, when [sep] occurs, the text
    after it. *)
Fixpoint split_first (sep : ascii) (s : string) : string * option string :=
  match s with
  | EmptyString => (EmptyString, None)
  | String c rest =>
      if Ascii.eqb c sep then (EmptyString, Some rest)
      else let (a, b) := split_first sep rest in (String c a, b)
  end.

(** The fields of [s] separated by [sep]. *)
Fixpoint split_all (sep : ascii) (s : string) : list string :=
  match s with
  | EmptyString => [EmptyString]
  | String c rest =>
      if Ascii.eqb c sep then EmptyString :: split_all sep rest
      else
        match split_all sep rest with
        | [] => [String c EmptyString]
        | f :: fs => String c f :: fs
        end
  end.

Fixpoint map_option {A B : Type} (f : A -> option B) (l : list A)
  : option (list B) :=
  match l with
  | [] => Some []
  | x :: rest =>
      match f x, map_option f rest with
      | Some y, Some ys => Some (y :: ys)
      | _, _ => None
      end
  end.

Definition ident_of (s : string) : ident :=
  match numeric s with
  | Some n => INum n
  | None => IAlpha s
  end.

(** Modelled from the spec: [packaging.version.parse], the library
    function behind [version_sort_key], is not part of the sources.
    Section 4.1: parsing fails when the string is empty or has no leading
    numeric release segment; the release is a dotted sequence of numeric
    segments, optionally followed by a pre-release suffix after [-];
    a build-metadata suffix (after [+]) is ignored. *)
Definition parse (v : string) : option VersionKey :=
  let core := fst (split_first "+" v) in
  let (rel, pre) := split_first "-" core in
  match map_option numeric (split_all "." rel) with
  | Some segments =>
      Some (mkKey segments
              (option_map (fun p => map ident_of (split_all "." p)) pre))
  | None => None
  end.

(** The all-zero release against [b]. *)
Fixpoint compare_zero (b : list N) : comparison :=
  match b with
  | [] => Eq
  | y :: b' =>
      match (0 ?= y)%N with
      | Eq => compare_zero b'
      | c => c
      end
  end.

(** Numeric segments element-wise, a missing segment counting as zero. *)
Fixpoint compare_release (a b : list N) : comparison :=
  match a with
  | [] => compare_zero b
  | x :: a' =>
      match b with
      | [] => CompOpp (compare_zero a)
      | y :: b' =>
          match (x ?= y)%N with
          | Eq => compare_release a' b'
          | c => c
          end
      end
  end.

(** The first components decide; on a tie the second ones do. *)
Definition lex {A B : Type} (c1 : A -> A -> comparison)
           (c2 : B -> B -> comparison)
           (x1 : A) (x2 : B) (y1 : A) (y2 : B) : comparison :=
  match c1 x1 y1 with
  | Eq => c2 x2 y2
  | r => r
  end.

(** Numeric identifiers before alphabetic ones, otherwise numeric or
    lexicographic order. *)
Definition compare_ident (a b : ident) : comparison :=
  match a, b with
  | INum x, INum y => (x ?= y)%N
  | INum _, IAlpha _ => Lt
  | IAlpha _, INum _ => Gt
  | IAlpha s, IAlpha t => String.compare s t
  end.

Fixpoint compare_idents (a b : list ident) : comparison :=
  match a, b with
  | [], [] => Eq
  | [], _ :: _ => Lt
  | _ :: _, [] => Gt
  | x :: a', y :: b' =>
      match compare_ident x y with
      | Eq => compare_idents a' b'
      | c => c
      end
  end.

(** A release (no pre-release part) is above any pre-release. *)
Definition compare_prerelease (p q : option (list ident)) : comparison :=
  match p, q with
  | None, None => Eq
  | None, Some _ => Gt
  | Some _, None => Lt
  | Some a, Some b => compare_idents a b
  end.

(** Modelled from the spec: the order of [packaging.version] objects,
    which is not part of the sources.  Section 4.1: numeric segments
    first; then a release is above any pre-release of the same segments;
    pre-release identifiers are compared segment by segment. *)
Definition compare (a b : VersionKey) : comparison :=
  match compare_release (release a) (release b) with
  | Eq => compare_prerelease (prerelease a) (prerelease b)
  | c => c
  end.

(** [a < b] on version keys. *)
Definition ltb (a b : VersionKey) : bool :=
  match compare a b with
  | Lt => true
  | _ => false
  end.

(** Modelled from the spec: the version resolver of section 4.1 standing
    for [packaging.version]. *)
#[export] Instance resolver : Packaging := {
  Version := VersionKey;
  parse := parse;
  version_lt := ltb
}.

End VersionResolver.

(** ** Notions used to state the properties *)

(** The order a sort key needs: [ltb] is a strict order whose
    incomparability is an equivalence. *)
Record strict_weak_order {K : Type} (ltb : K -> K -> bool) : Prop := {
  swo_irrefl : forall a, ltb a a = false;
  swo_trans : forall a b c, ltb a b = true -> ltb b c = true -> ltb a c = true;
  swo_neg_trans :
    forall a b c, ltb a b = false -> ltb b c = false -> ltb a c = false
}.

(** A three-way comparison that orders its arguments consistently. *)
Record consistent_compare {A : Type} (cmp : A -> A -> comparison) : Prop := {
  cmp_antisym : forall a b, cmp a b = CompOpp (cmp b a);
  cmp_eq_congr : forall a b c, cmp a b = Eq -> cmp a c = cmp b c;
  cmp_lt_trans : forall a b c, cmp a b = Lt -> cmp b c = Lt -> cmp a c = Lt
}.

(** The sort of [Py.sort_pairs] when comparing never raises. *)
Module StableSort.
Section Defs.
Context {K A : Type} (ltb : K -> K -> bool).

Fixpoint insert (x : K * A) (l : list (K * A)) : list (K * A) :=
  match l with
  | [] => [x]
  | y :: rest =>
      if ltb (fst y) (fst x) then y :: insert x rest else x :: y :: rest
  end.

Fixpoint sort (l : list (K * A)) : list (K * A) :=
  match l with
  | [] => []
  | x :: rest => insert x (sort rest)
  end.

(** [y] does not sort before [x]. *)
Definition le (x y : K * A) : Prop := ltb (fst y) (fst x) = false.

(** The key of [x] ties with [k]. *)
Definition tied (k : K) (x : K * A) : bool :=
  negb (ltb k (fst x)) && negb (ltb (fst x) k).
End Defs.
End StableSort.

(** Shapes of the documents the program reads.  A document may carry any
    other fields besides the ones named here. *)
Module Shape.

(** [r] is a resource of type [ty] with endpoint [id]. *)
Definition resource (r : json) (ty : string) (id : json) : Prop :=
  Py.getitem r "@type" = Ok (JStr ty) /\ Py.getitem r "@id" = Ok id.

(** [r] is a resource whose type starts with [type_prefix] or not,
    according to [b]. *)
Definition resource_matching (type_prefix : string) (b : bool) (r : json)
  : Prop :=
  exists ty id, resource r ty id /\ PyStr.startswith ty type_prefix = b.

(** [j] is an index document with the resources [rs]. *)
Definition index (j : json) (rs : list json) : Prop :=
  Py.getitem j "resources" = Ok (JArr rs).

(** [e] is a version entry with self link [id] and version string [v]. *)
Definition version_entry (e : json) (id : json) (v : string) : Prop :=
  Py.getitem e "@id" = Ok id /\ Py.getitem e "version" = Ok (JStr v).

Definition is_version_entry (e : json) : Prop :=
  exists id v, version_entry e id v.

(** [p] is a package entry with identifier [id] and version entries
    [vs]. *)
Definition package_entry (p : json) (id : string) (vs : list json) : Prop :=
  Py.getitem p "id" = Ok (JStr id)
  /\ Py.getitem p "versions" = Ok (JArr vs)
  /\ Forall is_version_entry vs.

Definition is_package_entry (p : json) : Prop :=
  exists id vs, package_entry p id vs.

(** [j] is a search result with the package entries [ds]. *)
Definition search_result (j : json) (ds : list json) : Prop :=
  Py.getitem j "data" = Ok (JArr ds) /\ Forall is_package_entry ds.

End Shape.

Section Notions.

Context {pkg : Packaging}.
Variable py_str : json -> string.
Variable net : network.

(** [sorted(versions, key=version_sort_key)] on version strings. *)
Definition sort_versions (versions : list string) : result (list string) :=
  Py.sorted (fun a b => Ok (version_lt a b))
            (fun s => version_sort_key (JStr s)) versions.

(** The version of [p] has a sort key. *)
Definition parseable (p : Package) : Prop :=
  exists k, parse (version p) = Some k.

(** The version field of [e] is a string that parses. *)
Definition keyed (e : json) : Prop :=
  exists s k, Py.getitem e "version" = Ok (JStr s) /\ parse s = Some k.

(** [e] is a version entry whose version string does not parse. *)
Definition unparseable_entry (e : json) : Prop :=
  exists id s, Shape.version_entry e id s /\ parse s = None.

(** [p] is a package entry one of whose version strings does not
    parse. *)
Definition has_unparseable_version (p : json) : Prop :=
  exists id vs, Shape.package_entry p id vs /\ Exists unparseable_entry vs.

(** [p] is a package entry all of whose version strings parse. *)
Definition all_versions_parse (p : json) : Prop :=
  exists id vs, Shape.package_entry p id vs /\ Forall keyed vs.

(** The version of [q] is not below the version of [p]. *)
Definition version_le (p q : Package) : Prop :=
  exists a b, parse (version p) = Some a /\ parse (version q) = Some b
              /\ version_lt b a = false.

(** The version of [p] ties with the key [k]. *)
Definition version_tied (k : Version) (p : Package) : bool :=
  match parse (version p) with
  | Some a => negb (version_lt k a) && negb (version_lt a k)
  | None => false
  end.

(** One [package_search] per repository, in order, each starting from
    the history the previous one left; [cs] are the lists returned. *)
Inductive searches (package_name package_version : option string)
  : history -> list string -> list (list Package) -> history -> Prop :=
| searches_nil h : searches package_name package_version h [] [] h
| searches_cons h repo rest found h' cs h'' :
    package_search py_str net repo package_name package_version h
    = (Ok found, h') ->
    searches package_name package_version h' rest cs h'' ->
    searches package_name package_version h (repo :: rest) (found :: cs) h''.

(** After the history [h], the repository [repo] serves the index [idx],
    whose search service [url] answers the query for [package_name] with
    the document [j]. *)
Definition serves (h : history) (repo package_name : string)
                  (idx url j : json) : Prop :=
  net h repo = RespJSON idx
  /\ Py.truthy idx = true
  /\ resolve_endpoint idx "SearchQueryService/3.0" = Ok (Some url)
  /\ Py.truthy url = true
  /\ net (repo :: h) (search_string py_str url package_name) = RespJSON j
  /\ Py.truthy j = true.


(** The download URL as section 6 of the specification writes it: name
    and version lowercased in every segment. *)
Definition spec_download_url (content_service_base : string)
                             (package : Package) : string :=
  (content_service_base ++ "/" ++ PyStr.lower (name package) ++ "/"
   ++ PyStr.lower (version package) ++ "/" ++ PyStr.lower (name package)
   ++ "." ++ PyStr.lower (version package) ++ ".nupkg")%string.

End Notions.

(** ** The rest of the command line: catalog, selectors, file name *)

(** [REPOSITORIES] (lines 30-54), the aliases and URLs in the order of the
    dict literal. *)
Definition REPOSITORIES : list (string * string) :=
  [("dotnet5",
    "https://pkgs.dev.azure.com/dnceng/public/_packaging/dotnet5/nuget/v3/index.json");
   ("dotnet5-transport",
    "https://pkgs.dev.azure.com/dnceng/public/_packaging/dotnet5-transport/nuget/v3/index.json");
   ("dotnet6",
    "https://pkgs.dev.azure.com/dnceng/public/_packaging/dotnet6/nuget/v3/index.json");
   ("dotnet6-transport",
    "https://pkgs.dev.azure.com/dnceng/public/_packaging/dotnet6-transport/nuget/v3/index.json");
   ("dotnet7",
    "https://pkgs.dev.azure.com/dnceng/public/_packaging/dotnet7/nuget/v3/index.json");
   ("dotnet7-transport",
    "https://pkgs.dev.azure.com/dnceng/public/_packaging/dotnet7-transport/nuget/v3/index.json");
   ("dotnet-eng",
    "https://pkgs.dev.azure.com/dnceng/public/_packaging/dotnet-eng/nuget/v3/index.json");
   ("dotnet-experimental",
    "https://pkgs.dev.azure.com/dnceng/public/_packaging/dotnet-experimental/nuget/v3/index.json");
   ("dotnet-libraries",
    "https://pkgs.dev.azure.com/dnceng/public/_packaging/dotnet-libraries/nuget/v3/index.json");
   ("dotnet-libraries-transport",
    "https://pkgs.dev.azure.com/dnceng/public/_packaging/dotnet-libraries-transport/nuget/v3/index.json");
   ("dotnet-public",
    "https://pkgs.dev.azure.com/dnceng/public/_packaging/dotnet-public/nuget/v3/index.json");
   ("dotnet-public-local",
    "https://pkgs.dev.azure.com/dnceng/public/_packaging/dotnet-public%40local/nuget/v3/index.json");
   ("dotnet-tools",
    "https://pkgs.dev.azure.com/dnceng/public/_packaging/dotnet-tools/nuget/v3/index.json");
   ("dotnet-tools-transport",
    "https://pkgs.dev.azure.com/dnceng/public/_packaging/dotnet-tools-transport/nuget/v3/index.json");
   ("messagepack-csharp",
    "https://pkgs.dev.azure.com/ils0086/messagepack-csharp/_packaging/messagepack-ci/nuget/v3/index.json");
   ("myget-applicationinsights",
    "https://www.myget.org/f/applicationinsights/api/v3/index.json");
   ("myget-aspnet-contrib",
    "https://www.myget.org/f/aspnet-contrib/api/v3/index.json");
   ("nuget.org",
    "https://api.nuget.org/v3/index.json")].

(** [catalog[k]] for a dict given by its items (the keys of a dict are
    distinct). *)
Fixpoint catalog_get (catalog : list (string * string)) (k : string)
  : option string :=
  match catalog with
  | [] => None
  | (k', v) :: rest => if String.eqb k' k then Some v else catalog_get rest k
  end.

(** [get_repository_url] (lines 218-227); [if (repository):] holds when
    [or_none] keeps the string. *)
Definition get_repository_url (repository : option string) : result string :=
  match or_none repository with
  | Some r =>
      match catalog_get REPOSITORIES r with
      | Some repository_url => Ok repository_url
      | None => Ok r
      end
  | None =>
      match catalog_get REPOSITORIES "nuget.org" with
      | Some repository_url => Ok repository_url
      | None => Raise KeyError
      end
  end.

(** [list_repositories_command] (lines 141-143): the lines it prints. *)
Definition list_repositories_command : list string :=
  map (fun kv => (snd kv ++ " (alias: " ++ fst kv ++ ")")%string) REPOSITORIES.

(** [s.isascii()]: every character of [s] is below 128.  Strings are
    sequences of 8-bit characters here, so [PyStr.lower] folds the letters
    A-Z only and [PyLines.strip] below removes ASCII whitespace only; on
    ASCII text that is what [str.lower] and [str.strip] do, while outside
    it Python also folds letters such as U+00C9 and strips whitespace such
    as U+00A0. *)
Fixpoint isascii (s : string) : bool :=
  match s with
  | EmptyString => true
  | String c rest => Nat.ltb (nat_of_ascii c) 128 && isascii rest
  end.

Module PyLines.

(** [c.isspace()] for an ASCII character: tab, line feed, vertical tab,
    form feed, carriage return, the four separators 0x1c-0x1f and the
    space. *)
Definition is_space (c : ascii) : bool :=
  let n := nat_of_ascii c in
  (Nat.leb 9 n && Nat.leb n 13) || (Nat.leb 28 n && Nat.leb n 32).

(** [s.lstrip()] *)
Fixpoint lstrip (s : string) : string :=
  match s with
  | EmptyString => EmptyString
  | String c rest => if is_space c then lstrip rest else s
  end.

(** [s.rstrip()] *)
Fixpoint rstrip (s : string) : string :=
  match s with
  | EmptyString => EmptyString
  | String c rest =>
      match rstrip rest with
      | EmptyString => if is_space c then EmptyString else String c EmptyString
      | rest' => String c rest'
      end
  end.

(** [s.strip()] on ASCII text. *)
Definition strip (s : string) : string := rstrip (lstrip s).

(** Nothing but whitespace. *)
Fixpoint all_space (s : string) : bool :=
  match s with
  | EmptyString => true
  | String c rest => is_space c && all_space rest
  end.

(** Whitespace at neither end. *)
Definition trimmed (s : string) : Prop :=
  (forall c rest, s = String c rest -> is_space c = false)
  /\ (forall front c,
         s = (front ++ String c EmptyString)%string -> is_space c = false).

End PyLines.

Module PosixPath.

Fixpoint has_slash (s : string) : bool :=
  match s with
  | EmptyString => false
  | String c rest => Ascii.eqb c "/" || has_slash rest
  end.

(** [os.path.basename(s)]: what follows the last slash, [s] itself when it
    has none. *)
Fixpoint basename (s : string) : string :=
  match s with
  | EmptyString => EmptyString
  | String c rest =>
      if has_slash rest then basename rest
      else if Ascii.eqb c "/" then rest
      else s
  end.

End PosixPath.

(** The selectors of the command line that [repositories_from_args]
    reads. *)
Record Args : Type := mkArgs {
  args_repository : option string;
  args_repository_list : option string
}.

(** Why reading the list file failed.  [open] raises [OSError] (no such
    file, no permission, a directory) or [ValueError] (a null byte in the
    path), and the iteration over the lines raises [UnicodeDecodeError] on
    bytes that are not text in the encoding of the locale.
    [repositories_from_args] catches none of them. *)
Inductive read_error : Type :=
| OSError
| ValueError
| UnicodeDecodeError.

(** What [open(path)] and the iteration over the whole file give: the
    lines, each with its line end, or the exception that ended the
    reading. *)
Inductive file_read : Type :=
| FileLines (lines : list string)
| FileRaises (e : read_error).

Definition file_system : Type := string -> file_read.

(** How [repositories_from_args] ends: with the list, with an exception
    of the program's own lookups, or with the exception of the reading. *)
Inductive selection : Type :=
| Selected (repository_urls : list string)
| SelectionRaises (e : exn)
| SelectionReadFails (e : read_error).

(** [repositories_from_args] (lines 208-216); [line.strip()] as it is on
    ASCII text. *)
Definition repositories_from_args (fs : file_system) (args : Args)
  : selection :=
  match or_none (args_repository args) with
  | Some _ =>
      match get_repository_url (args_repository args) with
      | Ok url => Selected [url]
      | Raise e => SelectionRaises e
      end
  | None =>
      match or_none (args_repository_list args) with
      | Some path =>
          match fs path with
          | FileLines lines => Selected (map PyLines.strip lines)
          | FileRaises e => SelectionReadFails e
          end
      | None => Selected (map snd REPOSITORIES)
      end
  end.

(** [filename = os.path.basename(download_url)] (line 135). *)
Definition download_filename (py_str : json -> string)
                             (content_service_url : json) (package : Package)
  : string :=
  PosixPath.basename (download_url py_str content_service_url package).

(** What [urllib.request.urlretrieve(url, filename=filename)] (line 137)
    does: it requests the URL and writes the body to the file, or raises
    ([URLError], [HTTPError], [ContentTooShortError], [OSError],
    [ValueError]); [download_command] catches none of them. *)
Inductive retrieval : Type :=
| Retrieved
| RetrievalFails.

(** The retrieval depends on what was requested before, on the URL and on
    the file name. *)
Definition retriever : Type := history -> string -> string -> retrieval.

(** How the whole of [download_command] ends. *)
Inductive download_outcome : Type :=
| Saved (filename : string)    (* line 139 prints the name of the file *)
| DownloadRaises (e : exn)     (* an exception raised before line 137 *)
| RetrievalRaises.             (* the exception of [urlretrieve] *)

(** [download_command] (lines 99-139) to its end: lines 135-139 after the
    URL of line 130.  The retrieval is one more request, made whether it
    succeeds or not. *)
Definition download_command_to_file
           {pkg : Packaging} (py_str : json -> string) (net : network)
           (urlretrieve : retriever) (repository_urls : list string)
           (package_name : string) (package_version : option string)
  : history -> download_outcome * history :=
  fun h =>
    match download_command py_str net repository_urls package_name
                           package_version h with
    | (Ok download_url, h1) =>
        let filename := PosixPath.basename download_url in
        (match urlretrieve h1 download_url filename with
         | Retrieved => Saved filename
         | RetrievalFails => RetrievalRaises
         end, download_url :: h1)
    | (Raise e, h1) => (DownloadRaises e, h1)
    end.

(** ** A small world of repositories *)

Module Example.

Definition resource (id ty : string) : json :=
  JObj [("@id", JStr id); ("@type", JStr ty)].

(** An index document offering a search and a content service under
    [base]. *)
Definition index_of (base : string) : json :=
  JObj [("version", JStr "3.0.0");
        ("resources",
         JArr [resource (base ++ "/query") "SearchQueryService/3.0.0-rc";
               resource (base ++ "/flat") "PackageBaseAddress/3.0.0"])].

(** An index document without a search service. *)
Definition index_without_search (base : string) : json :=
  JObj [("version", JStr "3.0.0");
        ("resources",
         JArr [resource (base ++ "/flat") "PackageBaseAddress/3.0.0"])].

Definition version_entry (id v : string) : json :=
  JObj [("version", JStr v); ("@id", JStr id)].

Definition search_result (id : string) (versions : list json) : json :=
  JObj [("totalHits", JNum 1);
        ("data", JArr [JObj [("id", JStr id); ("versions", JArr versions)]])].

Definition repo_a : string := "https://a.example.test/index.json".
Definition repo_b : string := "https://b.example.test/index.json".
Definition repo_c : string := "https://c.example.test/index.json".
Definition repo_d : string := "https://d.example.test/index.json".

Definition query (base : string) : string :=
  (base ++ "/query?q=Foo&prerelease=true&semVerLevel=2.0.0")%string.

Definition result_a : json :=
  search_result "Foo" [version_entry "foo-a" "1.0.0"].

Definition result_b : json :=
  search_result "Foo" [version_entry "foo-b" "1.0.0";
                       version_entry "foo-b" "0.9.0"].

Definition result_c : json :=
  search_result "Foo" [version_entry "foo-c" "1.0.0";
                       version_entry "foo-c" "not-a-version"].

(** Repository a offers Foo 1.0.0, b offers Foo 1.0.0 and 0.9.0, c
    lists a version string that is not a version, d has no search
    service; every other request fails. *)
Definition net : network :=
  fun _ url =>
    if String.eqb url repo_a then RespJSON (index_of "https://a.example.test")
    else if String.eqb url (query "https://a.example.test")
    then RespJSON result_a
    else if String.eqb url repo_b
    then RespJSON (index_of "https://b.example.test")
    else if String.eqb url (query "https://b.example.test")
    then RespJSON result_b
    else if String.eqb url repo_c
    then RespJSON (index_of "https://c.example.test")
    else if String.eqb url (query "https://c.example.test")
    then RespJSON result_c
    else if String.eqb url repo_d
    then RespJSON (index_without_search "https://d.example.test")
    else RespURLError.

(** A stand-in for [str] on values that are not strings; no example
    formats such a value. *)
Definition py_str (j : json) : string := EmptyString.

Definition pkg_a : Package := mkPackage "foo-a" "1.0.0" repo_a.
Definition pkg_b1 : Package := mkPackage "foo-b" "1.0.0" repo_b.
Definition pkg_b0 : Package := mkPackage "foo-b" "0.9.0" repo_b.

(** The requests made by searching a, and by searching a then b. *)
Definition h_a : history := [query "https://a.example.test"; repo_a].
Definition h_ab : history :=
  [query "https://b.example.test"; repo_b] ++ h_a.

Definition bad_entry : json := version_entry "foo-c" "not-a-version".

Definition unreachable : string :=
  "https://unreachable.example.test/index.json".

End Example.

(** ** More repositories, and a list file *)

Module Example2.

Definition repo_e : string := "https://e.example.test/index.json".
Definition repo_f : string := "https://f.example.test/index.json".
Definition repo_g : string := "https://g.example.test/index.json".
Definition repo_k : string := "https://k.example.test/index.json".
Definition repo_m : string := "https://m.example.test/index.json".
Definition repo_n : string := "https://n.example.test/index.json".

(** An index whose search service has an empty endpoint. *)
Definition index_e : json :=
  JObj [("resources",
         JArr [Example.resource "" "SearchQueryService/3.0.0-rc"])].

(** An index with a search service and no content service. *)
Definition index_m : json :=
  JObj [("resources",
         JArr [Example.resource "https://m.example.test/query"
                                "SearchQueryService/3.0.0-rc"])].

(** An index whose content service has an empty endpoint. *)
Definition index_n : json :=
  JObj [("resources",
         JArr [Example.resource "https://n.example.test/query"
                                "SearchQueryService/3.0.0-rc";
               Example.resource "" "PackageBaseAddress/3.0.0"])].

(** A search answer without the key data. *)
Definition answer_f : json := JObj [("totalHits", JNum 0)].

Definition result_of (id : string) : json :=
  Example.search_result "Foo" [Example.version_entry id "1.0.0"].

(** Whether [url] was requested before. *)
Definition asked (h : history) (url : string) : bool :=
  existsb (String.eqb url) h.

(** Repository e names a search service without endpoint, f answers the
    search without data, g answers 503, k serves Foo 1.0.0 but cannot be
    reached any more once it has been searched, m has no content service,
    n has a content service without endpoint. *)
Definition net : network :=
  fun h url =>
    if String.eqb url repo_e then RespJSON index_e
    else if String.eqb url repo_f
    then RespJSON (Example.index_of "https://f.example.test")
    else if String.eqb url (Example.query "https://f.example.test")
    then RespJSON answer_f
    else if String.eqb url repo_g then RespHTTPError 503
    else if String.eqb url repo_k
    then if asked h (Example.query "https://k.example.test")
         then RespURLError
         else RespJSON (Example.index_of "https://k.example.test")
    else if String.eqb url (Example.query "https://k.example.test")
    then RespJSON (result_of "foo-k")
    else if String.eqb url repo_m then RespJSON index_m
    else if String.eqb url (Example.query "https://m.example.test")
    then RespJSON (result_of "foo-m")
    else if String.eqb url repo_n then RespJSON index_n
    else if String.eqb url (Example.query "https://n.example.test")
    then RespJSON (result_of "foo-n")
    else Example.net h url.

Definition pkg_k : Package := mkPackage "foo-k" "1.0.0" repo_k.
Definition pkg_m : Package := mkPackage "foo-m" "1.0.0" repo_m.
Definition pkg_n : Package := mkPackage "foo-n" "1.0.0" repo_n.

Definition h_k : history := [Example.query "https://k.example.test"; repo_k].
Definition h_m : history := [Example.query "https://m.example.test"; repo_m].
Definition h_n : history := [Example.query "https://n.example.test"; repo_n].

(** A search result with two package entries, neither in order. *)
Definition entry_core : json :=
  JObj [("id", JStr "Foo.Core");
        ("versions", JArr [Example.version_entry "core" "2.0.0";
                           Example.version_entry "core" "1.0.0"])].

Definition entry_foo : json :=
  JObj [("id", JStr "Foo");
        ("versions", JArr [Example.version_entry "foo" "1.0.0";
                           Example.version_entry "foo" "1.0.0-beta"])].

Definition result_two : json := JObj [("data", JArr [entry_core; entry_foo])].

Definition newline : string := String (ascii_of_nat 10) EmptyString.

(** A list file of three lines, the second one blank; no other file can
    be opened. *)
Definition fs : file_system :=
  fun path =>
    if String.eqb path "repos.txt"
    then FileLines [("https://a.example.test/index.json" ++ newline)%string;
                    newline;
                    "  https://b.example.test/index.json"]
    else FileRaises OSError.

(** Every retrieval succeeds. *)
Definition urlretrieve : retriever := fun _ _ _ => Retrieved.

End Example2.

(** * Properties *)

(** ** Strings *)

Module PyStrFacts.
Import PyStr.

Lemma startswith_iff (s pre : string) :
  startswith s pre = true <-> exists r, s = (pre ++ r)%string.
Proof.
  unfold startswith. revert s.
  induction pre as [|c pre IH]; intros s; simpl.
  - destruct s; split; intros; eauto.
  - destruct s as [|d s]; simpl.
    + split; [discriminate | intros [r Hr]; discriminate].
    + destruct (ascii_dec c d) as [->|Hcd].
      * rewrite IH. split; intros [r Hr]; exists r; congruence.
      * split; [discriminate | intros [r Hr]; congruence].
Qed.

Lemma substring_all (s : string) :
  String.substring 0 (String.length s) s = s.
Proof. induction s; simpl; congruence. Qed.

Lemma length_app (a b : string) :
  String.length (a ++ b)%string = String.length a + String.length b.
Proof. induction a; simpl; congruence. Qed.

Lemma substring_app_r (a b : string) :
  String.substring (String.length a) (String.length b) (a ++ b)%string = b.
Proof. induction a; simpl; auto using substring_all. Qed.

Lemma substring_app_l (a b : string) :
  String.substring 0 (String.length a) (a ++ b)%string = a.
Proof.
  induction a; simpl.
  - destruct b; reflexivity.
  - congruence.
Qed.

Lemma substring_split (n : nat) (s : string) :
  n <= String.length s ->
  s = (String.substring 0 n s
       ++ String.substring n (String.length s - n) s)%string.
Proof.
  revert n. induction s as [|c s IH]; intros [|n] Hn; simpl in *;
    try lia; try reflexivity.
  - now rewrite substring_all.
  - f_equal. apply IH. lia.
Qed.

Lemma endswith_iff (s suf : string) :
  endswith s suf = true <-> exists q, s = (q ++ suf)%string.
Proof.
  unfold endswith. rewrite andb_true_iff, Nat.leb_le, String.eqb_eq.
  split.
  - intros [Hlen Hsub].
    exists (String.substring 0 (String.length s - String.length suf) s).
    pose proof (substring_split (String.length s - String.length suf) s)
      as Hsplit.
    replace (String.length s - (String.length s - String.length suf))
      with (String.length suf) in Hsplit by lia.
    rewrite Hsub in Hsplit. apply Hsplit. lia.
  - intros [q ->]. rewrite length_app. split; [lia|].
    replace (String.length q + String.length suf - String.length suf)
      with (String.length q) by lia.
    apply substring_app_r.
Qed.

Lemma drop_last_app (q : string) (c : ascii) :
  drop_last (q ++ String c EmptyString) = q.
Proof.
  unfold drop_last. rewrite length_app. simpl.
  replace (String.length q + 1 - 1) with (String.length q) by lia.
  apply substring_app_l.
Qed.

End PyStrFacts.

(** ** Version matching *)

Lemma version_matches_iff (v p : string) :
  version_matches v p = true
  <-> v = p \/ exists q r, p = (q ++ "*")%string /\ v = (q ++ r)%string.
Proof.
  unfold version_matches.
  rewrite orb_true_iff, andb_true_iff, String.eqb_eq,
    PyStrFacts.endswith_iff, PyStrFacts.startswith_iff.
  split.
  - intros [Heq | [[q Hq] [r Hr]]]; [now left | right].
    subst p. rewrite PyStrFacts.drop_last_app in Hr. now exists q, r.
  - intros [Heq | (q & r & Hp & Hv)]; [now left | right].
    subst p. rewrite PyStrFacts.drop_last_app. split; eauto.
Qed.

(** C1: [version_matches v p] holds exactly when [v] equals [p] or [p] is
    some text [q] followed by [*] and [v] starts with [q]; it holds for
    [v] against itself, for 1.2.3 against 1.2.* and for 1.20.0 against 1.2*,
    and fails for 1.3.0 against 1.2.*. *)
Theorem version_matches_exact_or_prefix :
  (forall v p : string,
      version_matches v p = true
      <-> v = p \/ exists q r, p = (q ++ "*")%string /\ v = (q ++ r)%string)
  /\ (forall v : string, version_matches v v = true)
  /\ version_matches "1.2.3" "1.2.*" = true
  /\ version_matches "1.3.0" "1.2.*" = false
  /\ version_matches "1.20.0" "1.2*" = true.
Proof.
  split; [exact version_matches_iff|].
  split; [|repeat split; reflexivity].
  intros v. apply version_matches_iff. now left.
Qed.

(** ** The result monad *)

Lemma rbind_ok {A B : Type} (r : result A) (k : A -> result B) (b : B) :
  rbind r k = Ok b -> exists a, r = Ok a /\ k a = Ok b.
Proof. destruct r as [a|e]; simpl; [eauto | discriminate]. Qed.

(** Splits a hypothesis [let* x := r in k = Ok b] into its two steps. *)
Ltac bind_ok H :=
  let a := fresh "a" in
  let Ha := fresh "Hstep" in
  apply rbind_ok in H; destruct H as (a & Ha & H).

Lemma mapM_ok {A B : Type} (f : A -> result B) (l : list A) (ys : list B) :
  mapM f l = Ok ys -> Forall2 (fun x y => f x = Ok y) l ys.
Proof.
  revert ys. induction l as [|x l IH]; simpl; intros ys H.
  - injection H as <-. constructor.
  - bind_ok H. bind_ok H. injection H as <-. constructor; auto.
Qed.

Lemma mapM_total {A B : Type} (f : A -> result B) (l : list A) (ys : list B) :
  Forall2 (fun x y => f x = Ok y) l ys -> mapM f l = Ok ys.
Proof.
  induction 1 as [|x y l ys Hxy _ IH]; simpl; [reflexivity|].
  now rewrite Hxy, IH.
Qed.


Lemma Forall2_combine_snd {A B : Type} (R : A -> B -> Prop)
      (l : list A) (ys : list B) :
  Forall2 R l ys -> map snd (combine ys l) = l.
Proof. induction 1; simpl; congruence. Qed.

Lemma Forall2_combine_keys {A B : Type} (R : A -> B -> Prop)
      (l : list A) (ys : list B) :
  Forall2 R l ys -> Forall (fun kx => R (snd kx) (fst kx)) (combine ys l).
Proof. induction 1; simpl; constructor; auto. Qed.

(** ** The stable sort *)

Module SortFacts.

Section Raising.
Context {K A : Type} (key_lt : K -> K -> result bool).

Lemma insert_perm (x : K * A) (l l' : list (K * A)) :
  Py.insert key_lt x l = Ok l' -> Permutation (x :: l) l'.
Proof.
  revert l'. induction l as [|y l IH]; simpl; intros l' H.
  - injection H as <-. reflexivity.
  - bind_ok H. destruct a.
    + bind_ok H. injection H as <-.
      rewrite perm_swap. constructor. now apply IH.
    + injection H as <-. reflexivity.
Qed.

Lemma sort_pairs_perm (l l' : list (K * A)) :
  Py.sort_pairs key_lt l = Ok l' -> Permutation l l'.
Proof.
  revert l'. induction l as [|x l IH]; simpl; intros l' H.
  - injection H as <-. reflexivity.
  - bind_ok H. apply insert_perm in H.
    rewrite <- H. constructor. now apply IH.
Qed.

(** A successful [sorted] computed a key for every element and
    returns a rearrangement of its input. *)
Lemma sorted_perm (key : A -> result K) (l l' : list A) :
  Py.sorted key_lt key l = Ok l' ->
  Permutation l l' /\ Forall (fun x => exists k, key x = Ok k) l.
Proof.
  unfold Py.sorted. intros H. bind_ok H. bind_ok H. injection H as <-.
  apply mapM_ok in Hstep. apply sort_pairs_perm in Hstep0.
  split.
  - rewrite <- (Forall2_combine_snd _ _ _ Hstep) at 1.
    now apply Permutation_map.
  - clear - Hstep. induction Hstep; constructor; eauto.
Qed.
End Raising.

Section Total.
Context {K A : Type} (key_lt : K -> K -> result bool)
        (ltb : K -> K -> bool).

Lemma sort_perm (l : list (K * A)) :
  Permutation l (StableSort.sort ltb l).
Proof.
  induction l as [|x l IH]; simpl; [reflexivity|].
  transitivity (x :: StableSort.sort ltb l); [now constructor|].
  generalize (StableSort.sort ltb l). clear. intros l.
  induction l as [|y l IH]; simpl; [reflexivity|].
  destruct (ltb (fst y) (fst x)); [|reflexivity].
  rewrite perm_swap. now constructor.
Qed.

Lemma insert_total (x : K * A) (l : list (K * A)) :
  (forall y, In y l -> key_lt (fst y) (fst x) = Ok (ltb (fst y) (fst x))) ->
  Py.insert key_lt x l = Ok (StableSort.insert ltb x l).
Proof.
  induction l as [|y l IH]; simpl; intros H; [reflexivity|].
  rewrite (H y) by now left. simpl.
  destruct (ltb (fst y) (fst x)); [|reflexivity].
  rewrite IH by (intros; apply H; now right). reflexivity.
Qed.

(** When no comparison among the keys of [l] raises, the sort is the
    plain stable insertion sort. *)
Lemma sort_pairs_total (l : list (K * A)) :
  (forall x y, In x l -> In y l ->
               key_lt (fst x) (fst y) = Ok (ltb (fst x) (fst y))) ->
  Py.sort_pairs key_lt l = Ok (StableSort.sort ltb l).
Proof.
  induction l as [|x l IH]; simpl; intros H; [reflexivity|].
  rewrite IH by (intros; apply H; now right). simpl.
  apply insert_total. intros y Hy. apply H; [right | now left].
  eapply Permutation_in; [symmetry; apply sort_perm | exact Hy].
Qed.
End Total.

Section Order.
Context {K A : Type} (ltb : K -> K -> bool).
Hypothesis Hswo : strict_weak_order ltb.

Local Abbreviation le := (@StableSort.le K A ltb).
Local Abbreviation tied := (@StableSort.tied K A ltb).

Lemma ltb_asym (a b : K) : ltb a b = true -> ltb b a = false.
Proof.
  intros Hab. destruct (ltb b a) eqn:Hba; [|reflexivity].
  pose proof (swo_trans _ Hswo _ _ _ Hab Hba) as Haa.
  rewrite (swo_irrefl _ Hswo) in Haa. discriminate.
Qed.

Lemma le_trans (x y z : K * A) : le x y -> le y z -> le x z.
Proof.
  unfold StableSort.le. intros Hxy Hyz.
  exact (swo_neg_trans _ Hswo _ _ _ Hyz Hxy).
Qed.

Lemma insert_sorted (x : K * A) (l : list (K * A)) :
  StronglySorted le l -> StronglySorted le (StableSort.insert ltb x l).
Proof.
  induction 1 as [|y l Hl IH Hy]; simpl.
  - repeat constructor.
  - destruct (ltb (fst y) (fst x)) eqn:Hyx.
    + constructor; [exact IH|].
      assert (Hperm : Permutation (x :: l) (StableSort.insert ltb x l)).
      { clear. induction l as [|z l IH]; simpl; [reflexivity|].
        destruct (ltb (fst z) (fst x)); [|reflexivity].
        rewrite perm_swap. now constructor. }
      eapply Permutation_Forall; [exact Hperm|].
      constructor; [|exact Hy].
      unfold StableSort.le. now apply ltb_asym.
    + constructor; [now constructor|].
      constructor; [exact Hyx|].
      eapply Forall_impl; [|exact Hy].
      intros z Hz. eapply le_trans; [exact Hyx | exact Hz].
Qed.

Lemma sort_sorted (l : list (K * A)) :
  StronglySorted le (StableSort.sort ltb l).
Proof.
  induction l as [|x l IH]; simpl; [constructor|].
  now apply insert_sorted.
Qed.

(** Two elements tied with the same key are not ordered by [ltb]. *)
Lemma tied_not_lt (k : K) (x y : K * A) :
  tied k x = true -> tied k y = true -> ltb (fst y) (fst x) = false.
Proof.
  unfold StableSort.tied.
  rewrite !andb_true_iff, !negb_true_iff.
  intros [Hkx Hxk] [Hky Hyk].
  exact (swo_neg_trans _ Hswo _ _ _ Hyk Hkx).
Qed.

Lemma insert_stable (k : K) (x : K * A) (l : list (K * A)) :
  filter (tied k) (StableSort.insert ltb x l) = filter (tied k) (x :: l).
Proof.
  induction l as [|y l IH]; [reflexivity|].
  cbn [StableSort.insert].
  destruct (ltb (fst y) (fst x)) eqn:Hyx; [|reflexivity].
  cbn [filter] in *. rewrite IH.
  destruct (tied k x) eqn:Hx, (tied k y) eqn:Hy; try reflexivity.
  rewrite (tied_not_lt k x y Hx Hy) in Hyx. discriminate.
Qed.

(** Stability: the elements tied with any given key come out in the
    order they went in. *)
Lemma sort_stable (k : K) (l : list (K * A)) :
  filter (tied k) (StableSort.sort ltb l) = filter (tied k) l.
Proof.
  induction l as [|x l IH]; [reflexivity|].
  cbn [StableSort.sort]. rewrite insert_stable.
  cbn [filter]. now rewrite IH.
Qed.
End Order.

End SortFacts.

(** ** Lists and permutations *)

Lemma mapM_perm {A B : Type} (f : A -> result B) (l l' : list A)
      (ys : list B) :
  Permutation l l' -> mapM f l = Ok ys ->
  exists ys', mapM f l' = Ok ys' /\ Permutation ys ys'.
Proof.
  intros Hperm Hok. apply mapM_ok in Hok.
  destruct (Permutation_Forall2 Hperm Hok) as (ys' & Hys & Hall).
  exists ys'. split; [now apply mapM_total | exact Hys].
Qed.

Lemma concat_perm {A : Type} (xss yss : list (list A)) :
  Permutation xss yss -> Permutation (concat xss) (concat yss).
Proof.
  induction 1 as [|xs xss yss _ IH|xs ys xss|xss yss zss _ IH1 _ IH2]; simpl.
  - reflexivity.
  - now apply Permutation_app_head.
  - rewrite !app_assoc. apply Permutation_app_tail, Permutation_app_comm.
  - now transitivity (concat yss).
Qed.

(** ** Computations on the network *)

Lemma bind_ok_eq {A B : Type} (m : M A) (k : A -> M B) (h h' : history)
      (a : A) :
  m h = (Ok a, h') -> bind m k h = k a h'.
Proof. unfold bind. now intros ->. Qed.

Lemma bind_raise_eq {A B : Type} (m : M A) (k : A -> M B) (h h' : history)
      (e : exn) :
  m h = (Raise e, h') -> bind m k h = (Raise e, h').
Proof. unfold bind. now intros ->. Qed.

Lemma bind_ok_inv {A B : Type} (m : M A) (k : A -> M B) (h h' : history)
      (b : B) :
  bind m k h = (Ok b, h') ->
  exists a h1, m h = (Ok a, h1) /\ k a h1 = (Ok b, h').
Proof.
  unfold bind. destruct (m h) as [[a|e] h1]; [eauto | discriminate].
Qed.

Lemma getitem_ok_truthy (j v : json) (k : string) :
  Py.getitem j k = Ok v -> Py.truthy j = true.
Proof.
  destruct j as [| | | | |fields]; simpl; try discriminate.
  destruct fields; simpl; [discriminate | reflexivity].
Qed.

Section ProgramFacts.

Context {pkg : Packaging}.
Variable py_str : json -> string.
Variable net : network.

Lemma version_sort_key_ok (v : json) (k : Version) :
  version_sort_key v = Ok k -> exists s, v = JStr s /\ parse s = Some k.
Proof.
  destruct v; simpl; try discriminate.
  destruct (parse s) eqn:Hs; [|discriminate].
  intros [= <-]. eauto.
Qed.

(** *** Sorting packages by version *)

Lemma decorated_sorted (l : list (Version * Package)) :
  StronglySorted (StableSort.le version_lt) l ->
  Forall (fun kp => parse (version (snd kp)) = Some (fst kp)) l ->
  StronglySorted version_le (map snd l).
Proof.
  induction 1 as [|x l Hl IH Hx]; simpl; intros Hinv; [constructor|].
  inversion Hinv as [|? ? Hkx Hrest]; subst.
  constructor; [now apply IH|].
  rewrite Forall_forall in *. intros q Hq.
  apply in_map_iff in Hq as (y & <- & Hy).
  exists (fst x), (fst y). repeat split; auto.
  exact (Hx y Hy).
Qed.

Lemma decorated_filter (k : Version) (l : list (Version * Package)) :
  Forall (fun kp => parse (version (snd kp)) = Some (fst kp)) l ->
  filter (version_tied k) (map snd l)
  = map snd (filter (StableSort.tied version_lt k) l).
Proof.
  induction 1 as [|x l Hx _ IH]; simpl; [reflexivity|].
  unfold version_tied at 1. rewrite Hx.
  fold (StableSort.tied (A:=Package) version_lt k x).
  destruct (StableSort.tied version_lt k x); simpl; now rewrite IH.
Qed.

(** On packages whose versions all parse, [sorted] returns the stable
    ascending rearrangement. *)
Lemma sorted_by_version_spec (l : list Package) :
  strict_weak_order version_lt ->
  Forall parseable l ->
  exists out,
    sorted_by_version l = Ok out
    /\ Permutation l out
    /\ StronglySorted version_le out
    /\ forall k, filter (version_tied k) out = filter (version_tied k) l.
Proof.
  intros Hswo Hl.
  assert (Hkeys : exists ks,
             Forall2 (fun p k => version_sort_key (JStr (version p)) = Ok k)
                     l ks).
  { induction Hl as [|p l [k Hk] _ [ks IH]]; [exists []; constructor|].
    exists (k :: ks). constructor; [|exact IH]. simpl. now rewrite Hk. }
  destruct Hkeys as [ks Hks].
  set (dl := combine ks l).
  assert (Hinv : Forall (fun kp => parse (version (snd kp)) = Some (fst kp))
                        dl).
  { eapply Forall_impl; [|exact (Forall2_combine_keys _ _ _ Hks)].
    intros [k p] H. cbn [fst snd] in *.
    apply version_sort_key_ok in H as (s & [= <-] & H). exact H. }
  pose proof (SortFacts.sort_perm version_lt dl) as Hperm.
  assert (Hinv' : Forall (fun kp => parse (version (snd kp)) = Some (fst kp))
                         (StableSort.sort version_lt dl))
    by (eapply Permutation_Forall; eassumption).
  exists (map snd (StableSort.sort version_lt dl)).
  repeat split.
  - unfold sorted_by_version, Py.sorted.
    rewrite (mapM_total _ _ _ Hks). simpl. fold dl.
    rewrite (SortFacts.sort_pairs_total _ version_lt) by reflexivity.
    reflexivity.
  - rewrite <- (Forall2_combine_snd _ _ _ Hks) at 1. fold dl.
    now apply Permutation_map.
  - apply decorated_sorted; [|exact Hinv'].
    now apply SortFacts.sort_sorted.
  - intros k. rewrite decorated_filter by exact Hinv'.
    rewrite SortFacts.sort_stable by exact Hswo.
    rewrite <- decorated_filter by exact Hinv.
    unfold dl. now rewrite (Forall2_combine_snd _ _ _ Hks).
Qed.

(** *** Every package found has a version that parses *)

Lemma make_package_version (repo : string) (e : json) (p : Package)
      (s : string) :
  make_package py_str repo e = Ok p ->
  Py.getitem e "version" = Ok (JStr s) ->
  version p = s.
Proof.
  unfold make_package. intros H Hv. bind_ok H. rewrite Hv in H. simpl in H.
  injection H as <-. reflexivity.
Qed.

Lemma emit_versions_parseable (repo : string) (ver : option string)
      (vs : list json) (acc out : list Package) :
  Forall keyed vs -> Forall parseable acc ->
  emit_versions py_str repo ver vs acc = Ok out -> Forall parseable out.
Proof.
  intros Hvs. revert acc out.
  induction Hvs as [|e vs (s & k & He & Hk) _ IH]; simpl; intros acc out Hacc H.
  - now injection H as <-.
  - assert (Hnext : forall p, make_package py_str repo e = Ok p ->
                              Forall parseable (acc ++ [p])).
    { intros p Hp. apply Forall_app. split; [exact Hacc|].
      constructor; [|constructor].
      exists k. now rewrite (make_package_version _ _ _ _ Hp He). }
    destruct (or_none ver) as [pattern|].
    + bind_ok H. bind_ok H. destruct a0.
      * bind_ok H. eapply IH; [|exact H]. now apply Hnext.
      * eapply IH; eassumption.
    + bind_ok H. eapply IH; [|exact H]. now apply Hnext.
Qed.

Lemma emit_packages_parseable (repo : string) (ver : option string)
      (ds : list json) (acc out : list Package) :
  Forall parseable acc ->
  emit_packages py_str repo ver ds acc = Ok out -> Forall parseable out.
Proof.
  revert acc out. induction ds as [|d ds IH]; simpl; intros acc out Hacc H.
  - now injection H as <-.
  - bind_ok H. bind_ok H. bind_ok H. bind_ok H.
    apply SortFacts.sorted_perm in Hstep1 as [Hperm Hkeys].
    eapply IH; [|exact H].
    eapply emit_versions_parseable; [|exact Hacc|exact Hstep2].
    eapply Permutation_Forall; [exact Hperm|].
    eapply Forall_impl; [|exact Hkeys].
    intros e [k He]. bind_ok He.
    apply version_sort_key_ok in He as (s & -> & Hs).
    now exists s, k.
Qed.

Lemma collect_parseable (j : json) (repo : string) (ver : option string)
      (out : list Package) :
  collect py_str j repo ver = Ok out -> Forall parseable out.
Proof.
  unfold collect. intros H. bind_ok H. bind_ok H. bind_ok H.
  eapply emit_packages_parseable; [constructor | exact H].
Qed.

Lemma package_search_parseable (repo : string)
      (package_name ver : option string) (h h' : history)
      (found : list Package) :
  package_search py_str net repo package_name ver h = (Ok found, h') ->
  Forall parseable found.
Proof.
  unfold package_search. intros H.
  apply bind_ok_inv in H as (n & h1 & _ & H).
  unfold search_body in H.
  apply bind_ok_inv in H as (j & h2 & _ & H).
  destruct (Py.truthy j); simpl in H;
    [|unfold ret in H; injection H as <- _; constructor].
  apply bind_ok_inv in H as (service & h3 & _ & H).
  destruct service as [url|]; [|discriminate].
  destruct (Py.truthy url); simpl in H;
    [|unfold ret in H; injection H as <- _; constructor].
  apply bind_ok_inv in H as (j' & h4 & _ & H).
  destruct (Py.truthy j'); simpl in H;
    [|unfold ret in H; injection H as <- _; constructor].
  unfold lift in H. injection H as H _.
  now apply collect_parseable in H.
Qed.

Lemma searches_parseable (package_name ver : option string)
      (h h' : history) (repos : list string) (cs : list (list Package)) :
  searches py_str net package_name ver h repos cs h' ->
  Forall parseable (concat cs).
Proof.
  induction 1 as [|h repo rest found h1 cs h2 Hfound _ IH]; simpl.
  - constructor.
  - apply Forall_app. split; [|exact IH].
    eapply package_search_parseable; exact Hfound.
Qed.

(** *** The accumulation loop *)

Lemma search_loop_searches (package_name ver : option string)
      (h h' : history) (repos : list string) (cs : list (list Package))
      (acc : list Package) :
  searches py_str net package_name ver h repos cs h' ->
  search_loop py_str net repos package_name ver acc h
  = (Ok (acc ++ concat cs), h').
Proof.
  intros H. revert acc.
  induction H as [|h repo rest found h1 cs h2 Hfound _ IH]; intros acc; simpl.
  - unfold ret. now rewrite app_nil_r.
  - rewrite (bind_ok_eq _ _ _ _ _ Hfound), IH. now rewrite app_assoc.
Qed.

(** An exception raised by one search ends the loop. *)
Lemma search_loop_raise (package_name ver : option string)
      (h h1 h2 : history) (before after : list string) (repo : string)
      (cs : list (list Package)) (acc : list Package) (e : exn) :
  searches py_str net package_name ver h before cs h1 ->
  package_search py_str net repo package_name ver h1 = (Raise e, h2) ->
  search_loop py_str net (before ++ repo :: after) package_name ver acc h
  = (Raise e, h2).
Proof.
  intros H Hraise. revert acc.
  induction H as [|h repo' rest found h1 cs h3 Hfound _ IH]; intros acc; simpl.
  - now rewrite (bind_raise_eq _ _ _ _ _ Hraise).
  - rewrite (bind_ok_eq _ _ _ _ _ Hfound). now apply IH.
Qed.

End ProgramFacts.

(** ** Aggregation *)

Section Aggregation.

Context {pkg : Packaging}.
Variable py_str : json -> string.
Variable net : network.

Lemma searches_length (package_name ver : option string) (h h' : history)
      (repos : list string) (cs : list (list Package)) :
  searches py_str net package_name ver h repos cs h' ->
  List.length cs = List.length repos.
Proof. induction 1; simpl; congruence. Qed.

Lemma short_perm_eq {A : Type} (l l' : list A) :
  Permutation l l' -> Nat.ltb 1 (List.length l) = false -> l = l'.
Proof.
  intros Hperm Hlen. apply Nat.ltb_ge in Hlen.
  destruct l as [|x [|y l]]; simpl in Hlen; try lia.
  - apply Permutation_nil in Hperm. now subst.
  - apply Permutation_length_1_inv in Hperm. now subst.
Qed.

(** [download_command] picks from the same sorted list as
    [search_command] prints. *)
Lemma select_for_download_sorted (l out : list Package) :
  sorted_by_version l = Ok out ->
  select_for_download l
  = match out with
    | [] => Raise IndexError
    | package :: _ => Ok package
    end.
Proof.
  intros Hout. unfold select_for_download.
  destruct (Nat.ltb 1 (List.length l)) eqn:Hlen.
  - now rewrite Hout.
  - pose proof (proj1 (SortFacts.sorted_perm _ _ _ _ Hout)) as Hperm.
    now rewrite (short_perm_eq _ _ Hperm Hlen).
Qed.

(** On a non-empty list of packages whose versions parse, the package
    selected for download is one of lowest version. *)
Lemma select_for_download_lowest (l : list Package) :
  strict_weak_order version_lt ->
  Forall parseable l ->
  l <> [] ->
  exists package,
    select_for_download l = Ok package
    /\ In package l
    /\ Forall (version_le package) l.
Proof.
  intros Hswo Hl Hne.
  destruct (sorted_by_version_spec _ Hswo Hl)
    as (out & Hout & Hperm & Hsorted & _).
  rewrite (select_for_download_sorted _ _ Hout).
  destruct out as [|p rest].
  - apply Permutation_sym, Permutation_nil in Hperm. contradiction.
  - exists p. split; [reflexivity|]. split.
    + eapply Permutation_in; [symmetry; exact Hperm | now left].
    + eapply Permutation_Forall; [symmetry; exact Hperm|].
      inversion Hsorted as [|? ? _ Hrest]; subst.
      constructor; [|exact Hrest].
      assert (Hp : parseable p).
      { rewrite Forall_forall in Hl. apply Hl.
        eapply Permutation_in; [symmetry; exact Hperm | now left]. }
      destruct Hp as [k Hk]. exists k, k. repeat split; auto.
      apply (swo_irrefl _ Hswo).
Qed.

(** C5: when the searches of the repositories, run one after the other
    in the given order, return the lists [cs], [search_command] returns
    the concatenation of [cs] sorted by version key: a rearrangement of
    the concatenation, ascending, in which the packages tied with any
    given key keep the order they had in the concatenation; and
    [download_command], after the same searches, takes the first package
    of that same sorted list and goes on to look up its content service
    (or ends with [IndexError] when the list is empty). *)
Theorem aggregate_concat_stable_sort
        (repository_urls : list string) (package_name : string)
        (package_version : option string) (h h' : history)
        (cs : list (list Package)) :
  strict_weak_order version_lt ->
  searches py_str net (Some package_name) (or_none package_version)
           h repository_urls cs h' ->
  exists out,
    search_command py_str net repository_urls package_name package_version h
    = (Ok out, h')
    /\ List.length cs = List.length repository_urls
    /\ sorted_by_version (concat cs) = Ok out
    /\ Permutation (concat cs) out
    /\ StronglySorted version_le out
    /\ (forall k,
           filter (version_tied k) out = filter (version_tied k) (concat cs))
    /\ select_for_download (concat cs)
       = match out with
         | [] => Raise IndexError
         | package :: _ => Ok package
         end
    /\ download_command py_str net repository_urls package_name
                        package_version h
       = match out with
         | [] => (Raise IndexError, h')
         | package :: _ => content_url py_str net package h'
         end.
Proof.
  intros Hswo Hsearch.
  pose proof (searches_parseable _ _ _ _ _ _ _ _ Hsearch) as Hparse.
  destruct (sorted_by_version_spec _ Hswo Hparse)
    as (out & Hout & Hperm & Hsorted & Hstable).
  pose proof (select_for_download_sorted _ _ Hout) as Hselect.
  exists out. repeat split; auto.
  - unfold search_command.
    rewrite (bind_ok_eq _ _ _ _ _
               (search_loop_searches _ _ _ _ _ _ _ _ [] Hsearch)).
    unfold lift. simpl. now rewrite Hout.
  - eapply searches_length; eassumption.
  - unfold download_command.
    rewrite (bind_ok_eq _ _ _ _ _
               (search_loop_searches _ _ _ _ _ _ _ _ [] Hsearch)).
    simpl. unfold bind at 1, lift. rewrite Hselect.
    destruct out; reflexivity.
Qed.

End Aggregation.

(** ** One repository *)

Lemma or_none_not_empty (package_version : option string) :
  or_none package_version <> Some EmptyString.
Proof.
  destruct package_version as [[|c s]|]; simpl; discriminate.
Qed.


Section Repository.

Context {pkg : Packaging}.
Variable py_str : json -> string.
Variable net : network.

Lemma check_arguments_ok (package_name : string) (ver : option string)
      (h : history) :
  package_name <> EmptyString -> ver <> Some EmptyString ->
  check_arguments (Some package_name) ver h = (Ok package_name, h).
Proof.
  intros Hname Hver. unfold check_arguments.
  destruct package_name as [|c n]; [congruence|].
  destruct ver as [[|d v]|]; try congruence; reflexivity.
Qed.

Lemma package_search_body (repo package_name : string)
      (ver : option string) (h : history) :
  package_name <> EmptyString -> ver <> Some EmptyString ->
  package_search py_str net repo (Some package_name) ver h
  = search_body py_str net repo package_name ver h.
Proof.
  intros Hname Hver. unfold package_search.
  now rewrite (bind_ok_eq _ _ _ _ _ (check_arguments_ok _ _ h Hname Hver)).
Qed.

(** A repository that serves its index and the search result [j]
    contributes what [collect] reads from [j], after two requests. *)
Lemma package_search_serves (repo package_name : string)
      (ver : option string) (h : history) (idx url j : json) :
  package_name <> EmptyString -> ver <> Some EmptyString ->
  serves py_str net h repo package_name idx url j ->
  package_search py_str net repo (Some package_name) ver h
  = (collect py_str j repo ver,
     search_string py_str url package_name :: repo :: h).
Proof.
  intros Hname Hver (Hidx & Tidx & Hurl & Turl & Hj & Tj).
  rewrite package_search_body by assumption.
  unfold search_body, bind, get_json, lift.
  rewrite Hidx, Tidx. simpl. rewrite Hurl, Turl. simpl.
  rewrite Hj, Tj. reflexivity.
Qed.

(** *** Well-shaped search results *)

Lemma id_sort_shaped (ds : list json) :
  Forall Shape.is_package_entry ds ->
  exists ds', Py.sorted Py.lt (fun p => Py.getitem p "id") ds = Ok ds'
              /\ Permutation ds ds'.
Proof.
  intros Hds.
  assert (Hkeys : exists ks,
             Forall2 (fun p k => Py.getitem p "id" = Ok k) ds ks
             /\ Forall (fun k => exists s, k = JStr s) ks).
  { induction Hds as [|p ds (id & vs & Hid & _) _ (ks & IH1 & IH2)].
    - exists []. split; constructor.
    - exists (JStr id :: ks). split; constructor; eauto. }
  destruct Hkeys as (ks & Hks & Hstr).
  pose (ltb := fun a b : json =>
                 match Py.lt a b with Ok c => c | Raise _ => false end).
  assert (Hsort : Py.sort_pairs Py.lt (combine ks ds)
                  = Ok (StableSort.sort ltb (combine ks ds))).
  { apply SortFacts.sort_pairs_total. intros [k1 p1] [k2 p2] H1 H2.
    apply in_combine_l in H1, H2. rewrite Forall_forall in Hstr.
    destruct (Hstr _ H1) as [s1 ->], (Hstr _ H2) as [s2 ->].
    reflexivity. }
  exists (map snd (StableSort.sort ltb (combine ks ds))). split.
  - unfold Py.sorted. rewrite (mapM_total _ _ _ Hks). simpl.
    now rewrite Hsort.
  - rewrite <- (Forall2_combine_snd _ _ _ Hks) at 1.
    apply Permutation_map, SortFacts.sort_perm.
Qed.

(** Sorting well-shaped version entries either succeeds, when every
    version string parses, or raises [InvalidVersion]. *)
Lemma version_sort_shaped (vs : list json) :
  Forall Shape.is_version_entry vs ->
  (Forall keyed vs
   /\ exists vs',
       Py.sorted (fun a b => Ok (version_lt a b))
                 (fun v => let* s := Py.getitem v "version" in
                           version_sort_key s) vs = Ok vs'
       /\ Permutation vs vs')
  \/ (Exists unparseable_entry vs
      /\ Py.sorted (fun a b => Ok (version_lt a b))
                   (fun v => let* s := Py.getitem v "version" in
                             version_sort_key s) vs
         = Raise InvalidVersion).
Proof.
  intros Hvs.
  set (kf := fun v => let* s := Py.getitem v "version" in
                      version_sort_key s).
  assert (Hkeys : (Forall keyed vs
                   /\ exists ks, Forall2 (fun v k => kf v = Ok k) vs ks)
                  \/ (Exists unparseable_entry vs
                      /\ mapM kf vs = Raise InvalidVersion)).
  { induction Hvs as [|e vs (id & s & Hid & Hs) _ IH].
    - left. split; [constructor | exists []; constructor].
    - destruct (parse s) as [k|] eqn:Hk.
      + assert (Hke : kf e = Ok k)
          by (unfold kf; rewrite Hs; simpl; now rewrite Hk).
        destruct IH as [[Hall [ks IH]] | [Hbad IH]].
        * left. split; [constructor; [now exists s, k | exact Hall]|].
          exists (k :: ks). now constructor.
        * right. split; [now apply Exists_cons_tl|].
          simpl. now rewrite Hke, IH.
      + right. split.
        * apply Exists_cons_hd. exists id, s. now repeat split.
        * simpl. unfold kf at 1. rewrite Hs. simpl. now rewrite Hk. }
  destruct Hkeys as [[Hall [ks Hks]] | [Hbad Hraise]].
  - left. split; [exact Hall|].
    exists (map snd (StableSort.sort version_lt (combine ks vs))). split.
    + unfold Py.sorted. fold kf. rewrite (mapM_total _ _ _ Hks). simpl.
      rewrite (SortFacts.sort_pairs_total _ version_lt) by reflexivity.
      reflexivity.
    + rewrite <- (Forall2_combine_snd _ _ _ Hks) at 1.
      apply Permutation_map, SortFacts.sort_perm.
  - right. split; [exact Hbad|].
    unfold Py.sorted. fold kf. now rewrite Hraise.
Qed.

Lemma make_package_shaped (repo : string) (e : json) :
  Shape.is_version_entry e ->
  exists p, make_package py_str repo e = Ok p.
Proof.
  intros (id & s & Hid & Hs). unfold make_package.
  rewrite Hid, Hs. simpl. eauto.
Qed.

Lemma emit_versions_shaped (repo : string) (ver : option string)
      (vs : list json) (acc : list Package) :
  Forall Shape.is_version_entry vs ->
  exists out, emit_versions py_str repo ver vs acc = Ok out.
Proof.
  intros Hvs. revert acc.
  induction Hvs as [|e vs He _ IH]; intros acc; simpl; [eauto|].
  destruct (make_package_shaped repo e He) as [p Hp].
  destruct He as (id & s & Hid & Hs).
  destruct (or_none ver) as [pattern|].
  - rewrite Hs. simpl. destruct (version_matches s pattern); [|apply IH].
    rewrite Hp. simpl. apply IH.
  - rewrite Hp. simpl. apply IH.
Qed.

Lemma keyed_not_unparseable (vs : list json) :
  Forall keyed vs -> Exists unparseable_entry vs -> False.
Proof.
  intros Hall Hbad. rewrite Forall_forall in Hall.
  apply Exists_exists in Hbad as (e & He & id & s & [_ Hs] & Hnone).
  destruct (Hall e He) as (s' & k & Hs' & Hk). congruence.
Qed.

Lemma emit_packages_invalid (repo : string) (ver : option string)
      (ds : list json) (acc : list Package) :
  Forall Shape.is_package_entry ds ->
  Exists has_unparseable_version ds ->
  emit_packages py_str repo ver ds acc = Raise InvalidVersion.
Proof.
  intros Hds. revert acc.
  induction Hds as [|p ds (id & vs & Hid & Hvs & Hshape) _ IH];
    intros acc Hbad; [inversion Hbad|].
  simpl. rewrite Hvs. simpl.
  destruct (version_sort_shaped vs Hshape)
    as [[Hall (vs' & -> & Hperm)] | [_ ->]]; [|reflexivity].
  simpl.
  destruct (emit_versions_shaped repo ver vs' acc) as [acc' ->];
    [eapply Permutation_Forall; eassumption|].
  simpl. apply IH.
  inversion Hbad as [? ? (id' & vs0 & (_ & Hvs0 & _) & Hex)|]; subst;
    [|assumption].
  exfalso. rewrite Hvs in Hvs0. injection Hvs0 as <-.
  eapply keyed_not_unparseable; eassumption.
Qed.

(** A well-shaped search result with a version string that does not
    parse makes [collect] raise [InvalidVersion]. *)
Lemma collect_invalid (j : json) (ds : list json) (repo : string)
      (ver : option string) :
  Shape.search_result j ds ->
  Exists has_unparseable_version ds ->
  collect py_str j repo ver = Raise InvalidVersion.
Proof.
  intros [Hdata Hds] Hbad. unfold collect. rewrite Hdata. simpl.
  destruct (id_sort_shaped ds Hds) as (ds' & -> & Hperm). simpl.
  apply emit_packages_invalid.
  - eapply Permutation_Forall; eassumption.
  - apply Exists_exists in Hbad as (p & Hp & Hbad).
    apply Exists_exists. exists p. split; [|exact Hbad].
    eapply Permutation_in; eassumption.
Qed.

(** C8: a version string that does not parse, in the search result a
    repository serves, makes [package_search] raise [InvalidVersion];
    the exception leaves the accumulation loop, so [search_command] and
    [download_command] end with it, whatever the repositories searched
    before returned and without searching the remaining ones. *)
Theorem unparseable_version_aborts
        (before after : list string) (repo package_name : string)
        (package_version : option string) (h h1 : history)
        (cs : list (list Package)) (idx url j : json) (ds : list json) :
  package_name <> EmptyString ->
  searches py_str net (Some package_name) (or_none package_version)
           h before cs h1 ->
  serves py_str net h1 repo package_name idx url j ->
  Shape.search_result j ds ->
  Exists has_unparseable_version ds ->
  let h2 := search_string py_str url package_name :: repo :: h1 in
  package_search py_str net repo (Some package_name)
                 (or_none package_version) h1
  = (Raise InvalidVersion, h2)
  /\ search_command py_str net (before ++ repo :: after) package_name
                    package_version h
     = (Raise InvalidVersion, h2)
  /\ download_command py_str net (before ++ repo :: after) package_name
                      package_version h
     = (Raise InvalidVersion, h2).
Proof.
  intros Hname Hbefore Hserves Hshape Hbad h2.
  assert (Hsearch :
            package_search py_str net repo (Some package_name)
                           (or_none package_version) h1
            = (Raise InvalidVersion, h2)).
  { rewrite (package_search_serves _ _ _ _ _ _ _ Hname
               (or_none_not_empty _) Hserves).
    now rewrite (collect_invalid _ _ _ _ Hshape Hbad). }
  split; [exact Hsearch|].
  pose proof (fun acc => search_loop_raise py_str net _ _ _ _ _ _ after _ _
                           acc _ Hbefore Hsearch) as Hloop.
  split.
  - unfold search_command. now rewrite (bind_raise_eq _ _ _ _ _ (Hloop [])).
  - unfold download_command.
    now rewrite (bind_raise_eq _ _ _ _ _ (Hloop [])).
Qed.

End Repository.

(** ** Searching without a version spec *)

Section NoSpec.

Context {pkg : Packaging}.
Variable py_str : json -> string.
Variable net : network.

Lemma emit_versions_all (repo : string) (ver : option string)
      (vs : list json) (acc : list Package) :
  or_none ver = None ->
  emit_versions py_str repo ver vs acc
  = (let* ps := mapM (make_package py_str repo) vs in Ok (acc ++ ps)).
Proof.
  intros Hnone. revert acc.
  induction vs as [|e vs IH]; intros acc; simpl.
  - now rewrite app_nil_r.
  - rewrite Hnone. destruct (make_package py_str repo e) as [p|x]; simpl;
      [|reflexivity].
    rewrite IH. destruct (mapM (make_package py_str repo) vs); simpl;
      [|reflexivity].
    now rewrite <- app_assoc.
Qed.




End NoSpec.

(** ** Service lookup *)

Lemma service_loop_app (type_prefix : string) (l1 l2 : list json)
      (cur : option json) :
  service_loop type_prefix (l1 ++ l2) cur
  = (let* cur' := service_loop type_prefix l1 cur in
     service_loop type_prefix l2 cur').
Proof.
  revert cur. induction l1 as [|r l1 IH]; intros cur; simpl; [reflexivity|].
  destruct (Py.getitem r "@type") as [ty|e]; simpl; [|reflexivity].
  destruct (Py.startswith ty type_prefix) as [[|]|e]; simpl;
    [|apply IH|reflexivity].
  destruct (Py.getitem r "@id"); simpl; [apply IH|reflexivity].
Qed.

Lemma service_loop_shaped (type_prefix : string) (l : list json)
      (cur : option json) :
  Forall (fun r => exists b, Shape.resource_matching type_prefix b r) l ->
  exists cur', service_loop type_prefix l cur = Ok cur'.
Proof.
  intros Hl. revert cur.
  induction Hl as [|r l (b & ty & id & [Hty Hid] & Hb) _ IH]; intros cur;
    simpl; [eauto|].
  rewrite Hty. simpl. rewrite Hb. destruct b; [|apply IH].
  rewrite Hid. simpl. apply IH.
Qed.

Lemma service_loop_no_match (type_prefix : string) (l : list json)
      (cur : option json) :
  Forall (Shape.resource_matching type_prefix false) l ->
  service_loop type_prefix l cur = Ok cur.
Proof.
  induction 1 as [|r l (ty & id & [Hty Hid] & Hb) _ IH]; simpl;
    [reflexivity|].
  rewrite Hty. simpl. now rewrite Hb.
Qed.

(** C3 (amended): when the index lists well-formed resources and at least
    one has a type starting with the prefix, the lookup yields the endpoint
    of the last such resource in document order; this holds for every
    prefix, so for the search and for the download prefix. *)
Theorem resolve_endpoint_last_match
        (j : json) (before after : list json) (r : json)
        (type_prefix ty : string) (id : json) :
  Shape.index j (before ++ r :: after) ->
  Forall (fun x => exists b, Shape.resource_matching type_prefix b x) before ->
  Shape.resource r ty id ->
  PyStr.startswith ty type_prefix = true ->
  Forall (Shape.resource_matching type_prefix false) after ->
  resolve_endpoint j type_prefix = Ok (Some id).
Proof.
  intros Hidx Hbefore [Hty Hid] Hmatch Hafter.
  unfold resolve_endpoint. rewrite Hidx. simpl.
  rewrite service_loop_app.
  destruct (service_loop_shaped type_prefix before None Hbefore) as [cur ->].
  simpl. rewrite Hty. simpl. rewrite Hmatch, Hid. simpl.
  now apply service_loop_no_match.
Qed.

(** The lookup does not stop at the first match: with two search
    resources, the endpoint of the second one is returned. *)
Lemma resolve_endpoint_not_first_match :
  ~ (forall (j : json) (before after : list json) (r : json)
            (type_prefix ty : string) (id : json),
        Shape.index j (before ++ r :: after) ->
        Forall (Shape.resource_matching type_prefix false) before ->
        Shape.resource r ty id ->
        PyStr.startswith ty type_prefix = true ->
        Forall (fun x => exists b, Shape.resource_matching type_prefix b x)
               after ->
        resolve_endpoint j type_prefix = Ok (Some id)).
Proof.
  intros H.
  pose (r1 := JObj [("@id", JStr "https://example.test/query-a");
                    ("@type", JStr "SearchQueryService/3.0.0-beta")]).
  pose (r2 := JObj [("@id", JStr "https://example.test/query-b");
                    ("@type", JStr "SearchQueryService/3.0.0-rc")]).
  specialize (H (JObj [("resources", JArr [r1; r2])]) [] [r2] r1
                "SearchQueryService/3.0" "SearchQueryService/3.0.0-beta"
                (JStr "https://example.test/query-a")).
  assert (Hfalse : resolve_endpoint (JObj [("resources", JArr [r1; r2])])
                                    "SearchQueryService/3.0"
                   = Ok (Some (JStr "https://example.test/query-a"))).
  { apply H.
    - reflexivity.
    - constructor.
    - split; reflexivity.
    - reflexivity.
    - constructor; [|constructor].
      exists true, "SearchQueryService/3.0.0-rc",
        (JStr "https://example.test/query-b").
      repeat split. }
  vm_compute in Hfalse. discriminate.
Qed.

(** ** Failures of one repository *)

Section Failures.

Context {pkg : Packaging}.
Variable py_str : json -> string.
Variable net : network.

(** A transport failure or a non-2xx status on the index request makes
    the repository contribute nothing. *)
Lemma index_fetch_failure_contributes_nothing
      (repo package_name : string) (ver : option string) (h : history) :
  package_name <> EmptyString -> ver <> Some EmptyString ->
  net h repo = RespURLError
  \/ (exists status, net h repo = RespHTTPError status) ->
  package_search py_str net repo (Some package_name) ver h
  = (Ok [], repo :: h).
Proof.
  intros Hname Hver Hfail.
  rewrite package_search_body by assumption.
  unfold search_body, bind, get_json.
  destruct Hfail as [-> | [status ->]]; reflexivity.
Qed.

(** The same failures on the search request. *)
Lemma search_fetch_failure_contributes_nothing
      (repo package_name : string) (ver : option string) (h : history)
      (idx url : json) :
  package_name <> EmptyString -> ver <> Some EmptyString ->
  net h repo = RespJSON idx ->
  Py.truthy idx = true ->
  resolve_endpoint idx "SearchQueryService/3.0" = Ok (Some url) ->
  Py.truthy url = true ->
  net (repo :: h) (search_string py_str url package_name) = RespURLError
  \/ (exists status,
         net (repo :: h) (search_string py_str url package_name)
         = RespHTTPError status) ->
  package_search py_str net repo (Some package_name) ver h
  = (Ok [], search_string py_str url package_name :: repo :: h).
Proof.
  intros Hname Hver Hidx Tidx Hurl Turl Hfail.
  rewrite package_search_body by assumption.
  unfold search_body, bind, get_json, lift.
  rewrite Hidx, Tidx. simpl. rewrite Hurl, Turl. simpl.
  destruct Hfail as [-> | [status ->]]; reflexivity.
Qed.

(** A body that [json.load] rejects is not caught by [get_json]. *)
Lemma malformed_index_raises
      (repo package_name : string) (ver : option string) (h : history) :
  package_name <> EmptyString -> ver <> Some EmptyString ->
  net h repo = RespMalformedJSON ->
  package_search py_str net repo (Some package_name) ver h
  = (Raise JSONDecodeError, repo :: h).
Proof.
  intros Hname Hver Hfail.
  rewrite package_search_body by assumption.
  unfold search_body, bind, get_json. now rewrite Hfail.
Qed.

(** C4: an index without a resource of type SearchQueryService/3.0
    leaves the service variable unbound, and testing it raises
    [UnboundLocalError]: [package_search] raises instead of returning
    the empty list, and [search_command] ends with the exception. *)
Theorem missing_search_service_raises
        (repo package_name : string) (package_version : option string)
        (rest : list string) (h : history) (idx : json) (rs : list json) :
  package_name <> EmptyString ->
  net h repo = RespJSON idx ->
  Shape.index idx rs ->
  Forall (Shape.resource_matching "SearchQueryService/3.0" false) rs ->
  package_search py_str net repo (Some package_name)
                 (or_none package_version) h
  = (Raise UnboundLocalError, repo :: h)
  /\ search_command py_str net (repo :: rest) package_name package_version h
     = (Raise UnboundLocalError, repo :: h).
Proof.
  intros Hname Hnet Hidx Hrs.
  assert (Hsearch :
            package_search py_str net repo (Some package_name)
                           (or_none package_version) h
            = (Raise UnboundLocalError, repo :: h)).
  { rewrite package_search_body by (auto using or_none_not_empty).
    unfold search_body, bind, get_json, lift. rewrite Hnet.
    rewrite (getitem_ok_truthy _ _ _ Hidx). simpl.
    unfold resolve_endpoint. rewrite Hidx. simpl.
    now rewrite (service_loop_no_match _ _ _ Hrs). }
  split; [exact Hsearch|].
  unfold search_command.
  erewrite bind_raise_eq; [reflexivity|].
  exact (search_loop_raise py_str net _ _ _ _ _ [] rest _ _ [] _
           (searches_nil _ _ _ _ _) Hsearch).
Qed.

(** C2: when the searches find nothing, [download_command] evaluates
    [packages[0]] on the empty list and ends with [IndexError]. *)
Theorem download_nothing_found_raises
        (repository_urls : list string) (package_name : string)
        (package_version : option string) (h h' : history)
        (cs : list (list Package)) :
  searches py_str net (Some package_name) (or_none package_version)
           h repository_urls cs h' ->
  concat cs = [] ->
  select_for_download (concat cs) = Raise IndexError
  /\ download_command py_str net repository_urls package_name
                      package_version h
     = (Raise IndexError, h').
Proof.
  intros Hsearch Hempty. rewrite Hempty. split; [reflexivity|].
  unfold download_command.
  rewrite (bind_ok_eq _ _ _ _ _
             (search_loop_searches _ _ _ _ _ _ _ _ [] Hsearch)).
  now rewrite Hempty.
Qed.

(** C10: [package_search] fails an assertion when the package name is
    [None] or empty or when the version spec is the empty string; with a
    non-empty name and a spec that is [None] or non-empty the assertions
    pass and the search proper runs. *)
Theorem package_search_assertions
        (repo : string) (package_name package_version : option string)
        (h : history) :
  (package_name = None \/ package_name = Some EmptyString
   \/ package_version = Some EmptyString ->
   package_search py_str net repo package_name package_version h
   = (Raise AssertionError, h))
  /\ (forall n,
         package_name = Some n -> n <> EmptyString ->
         package_version = None
         \/ (exists v, package_version = Some v /\ v <> EmptyString) ->
         check_arguments package_name package_version h = (Ok n, h)
         /\ package_search py_str net repo package_name package_version h
            = search_body py_str net repo n package_version h).
Proof.
  split.
  - intros [-> | [-> | ->]]; try reflexivity.
    destruct package_name as [[|c n]|]; reflexivity.
  - intros n -> Hn Hver.
    assert (Hv : package_version <> Some EmptyString).
    { destruct Hver as [-> | (v & -> & Hv)]; congruence. }
    split; [now apply check_arguments_ok | now apply package_search_body].
Qed.

(** The content service found for the selected package gives the URL of
    line 130. *)
Lemma content_url_resolved (package : Package) (h : history)
      (idx : json) (base : string) :
  net h (repository package) = RespJSON idx ->
  resolve_endpoint idx "PackageBaseAddress/3.0" = Ok (Some (JStr base)) ->
  base <> EmptyString ->
  content_url py_str net package h
  = (Ok (download_url py_str (JStr base) package),
     repository package :: h).
Proof.
  intros Hnet Hres Hbase. unfold content_url, bind, get_json, lift.
  rewrite Hnet, Hres. destruct base; [congruence | reflexivity].
Qed.

(** C9: for the package Foo.Bar 1.0.0-Beta and the content service
    https://example.test/flat, line 130 keeps the capitals of the name and
    of the version in the two directory segments and lowercases them in
    the file name only, so the URL differs from the one of the
    specification. *)
Theorem download_url_directories_not_lowercased :
  let package := mkPackage "Foo.Bar" "1.0.0-Beta"
                           "https://example.test/index.json" in
  download_url py_str (JStr "https://example.test/flat") package
  = "https://example.test/flat/Foo.Bar/1.0.0-Beta/foo.bar.1.0.0-beta.nupkg"
  /\ spec_download_url "https://example.test/flat" package
     = "https://example.test/flat/foo.bar/1.0.0-beta/foo.bar.1.0.0-beta.nupkg"
  /\ download_url py_str (JStr "https://example.test/flat") package
     <> spec_download_url "https://example.test/flat" package.
Proof.
  repeat split; try reflexivity. vm_compute. discriminate.
Qed.

End Failures.

(** ** The order of the version resolver *)

Module VersionFacts.
Import VersionResolver.

Lemma consistent_N : consistent_compare N.compare.
Proof.
  split.
  - intros a b. apply N.compare_antisym.
  - intros a b c H. apply N.compare_eq_iff in H. now subst.
  - intros a b c. rewrite !N.compare_lt_iff. lia.
Qed.

Lemma consistent_string : consistent_compare String.compare.
Proof.
  split.
  - exact String.compare_antisym.
  - intros a b c H. apply String.compare_eq_iff in H. now subst.
  - induction a as [|x a IH]; intros [|y b] [|z c]; simpl;
      try discriminate; try reflexivity.
    unfold Ascii.compare.
    destruct (N.compare_spec (N_of_ascii x) (N_of_ascii y)),
             (N.compare_spec (N_of_ascii y) (N_of_ascii z)),
             (N.compare_spec (N_of_ascii x) (N_of_ascii z));
      try lia; try discriminate; try reflexivity.
    apply IH.
Qed.

Section Lexicographic.
Context {A B : Type} (c1 : A -> A -> comparison)
        (c2 : B -> B -> comparison).
Hypothesis H1 : consistent_compare c1.

Lemma lex_antisym (x1 y1 : A) (x2 y2 : B) :
  c2 x2 y2 = CompOpp (c2 y2 x2) ->
  lex c1 c2 x1 x2 y1 y2 = CompOpp (lex c1 c2 y1 y2 x1 x2).
Proof.
  unfold lex. intros H2. rewrite (cmp_antisym _ H1 x1 y1).
  destruct (c1 y1 x1); simpl; auto.
Qed.

Lemma lex_eq_congr (x1 y1 z1 : A) (x2 y2 z2 : B) :
  (c2 x2 y2 = Eq -> c2 x2 z2 = c2 y2 z2) ->
  lex c1 c2 x1 x2 y1 y2 = Eq ->
  lex c1 c2 x1 x2 z1 z2 = lex c1 c2 y1 y2 z1 z2.
Proof.
  unfold lex. intros H2 H.
  destruct (c1 x1 y1) eqn:Hxy; try discriminate.
  rewrite (cmp_eq_congr _ H1 _ _ z1 Hxy).
  destruct (c1 y1 z1); auto.
Qed.

Lemma lex_lt_trans (x1 y1 z1 : A) (x2 y2 z2 : B) :
  (c2 x2 y2 = Lt -> c2 y2 z2 = Lt -> c2 x2 z2 = Lt) ->
  lex c1 c2 x1 x2 y1 y2 = Lt -> lex c1 c2 y1 y2 z1 z2 = Lt ->
  lex c1 c2 x1 x2 z1 z2 = Lt.
Proof.
  unfold lex. intros H2 Hxy Hyz.
  destruct (c1 x1 y1) eqn:Exy; try discriminate.
  - rewrite (cmp_eq_congr _ H1 _ _ z1 Exy).
    destruct (c1 y1 z1); auto.
  - destruct (c1 y1 z1) eqn:Eyz; try discriminate.
    + assert (Ezy : c1 z1 y1 = Eq)
        by (rewrite (cmp_antisym _ H1), Eyz; reflexivity).
      rewrite (cmp_antisym _ H1 x1 z1),
        (cmp_eq_congr _ H1 _ _ x1 Ezy),
        <- (cmp_antisym _ H1 x1 y1), Exy.
      reflexivity.
    + now rewrite (cmp_lt_trans _ H1 _ _ _ Exy Eyz).
Qed.
End Lexicographic.

Lemma consistent_ident : consistent_compare compare_ident.
Proof.
  split.
  - intros [x|s] [y|t]; simpl; try reflexivity.
    + apply N.compare_antisym.
    + apply String.compare_antisym.
  - intros [x|s] [y|t] [z|u]; simpl; try discriminate; try reflexivity.
    + apply (cmp_eq_congr _ consistent_N).
    + apply (cmp_eq_congr _ consistent_string).
  - intros [x|s] [y|t] [z|u]; simpl; try discriminate; try reflexivity.
    + apply (cmp_lt_trans _ consistent_N).
    + apply (cmp_lt_trans _ consistent_string).
Qed.

Lemma compare_idents_lex (x y : ident) (a b : list ident) :
  compare_idents (x :: a) (y :: b)
  = lex compare_ident compare_idents x a y b.
Proof. reflexivity. Qed.

Lemma consistent_idents : consistent_compare compare_idents.
Proof.
  split.
  - induction a as [|x a IH]; intros [|y b]; try reflexivity.
    rewrite !compare_idents_lex.
    apply lex_antisym; [exact consistent_ident | apply IH].
  - induction a as [|x a IH]; intros [|y b] [|z c]; try discriminate;
      try reflexivity.
    rewrite !compare_idents_lex.
    apply lex_eq_congr; [exact consistent_ident | apply IH].
  - induction a as [|x a IH]; intros [|y b] [|z c]; try discriminate;
      try reflexivity.
    rewrite !compare_idents_lex.
    apply lex_lt_trans; [exact consistent_ident | apply IH].
Qed.

Lemma consistent_prerelease : consistent_compare compare_prerelease.
Proof.
  split.
  - intros [a|] [b|]; simpl; try reflexivity.
    apply (cmp_antisym _ consistent_idents).
  - intros [a|] [b|] [c|]; simpl; try discriminate; try reflexivity.
    apply (cmp_eq_congr _ consistent_idents).
  - intros [a|] [b|] [c|]; simpl; try discriminate; try reflexivity.
    apply (cmp_lt_trans _ consistent_idents).
Qed.

(** *** Release segments *)

Lemma compare_zero_cases (b : list N) :
  compare_zero b = Eq \/ compare_zero b = Lt.
Proof.
  induction b as [|y b IH]; simpl; [now left|].
  destruct y; simpl; auto.
Qed.

Lemma compare_release_nil_r (a : list N) :
  compare_release a [] = CompOpp (compare_zero a).
Proof. destruct a; reflexivity. Qed.

Lemma compare_release_antisym (a b : list N) :
  compare_release a b = CompOpp (compare_release b a).
Proof.
  revert b. induction a as [|x a IH]; intros b.
  - rewrite compare_release_nil_r, CompOpp_involutive. reflexivity.
  - destruct b as [|y b]; [reflexivity|]. cbn [compare_release].
    rewrite (N.compare_antisym y x).
    destruct (y ?= x)%N; cbn [CompOpp]; auto.
Qed.

Lemma compare_release_zero_l (a c : list N) :
  compare_zero a = Eq -> compare_release a c = compare_zero c.
Proof.
  revert c. induction a as [|x a IH]; intros c; [reflexivity|].
  destruct x as [|p]; cbn [compare_zero N.compare]; [|discriminate].
  intros Ha. destruct c as [|z c]; cbn [compare_release compare_zero].
  - cbn [N.compare]. now rewrite Ha.
  - destruct z; cbn [N.compare]; auto.
Qed.

Lemma compare_release_eq_congr (a b c : list N) :
  compare_release a b = Eq -> compare_release a c = compare_release b c.
Proof.
  revert b c. induction a as [|x a IH]; intros b c H.
  - cbn [compare_release] in H. now rewrite (compare_release_zero_l b c H).
  - destruct b as [|y b].
    + rewrite compare_release_nil_r in H.
      destruct (compare_zero (x :: a)) eqn:Hz; try discriminate.
      now rewrite (compare_release_zero_l _ c Hz).
    + cbn [compare_release] in H.
      destruct (N.compare_spec x y) as [->| |]; try discriminate.
      destruct c as [|z c].
      * rewrite !compare_release_nil_r. cbn [compare_zero].
        pose proof (IH b [] H) as Hnil.
        rewrite !compare_release_nil_r in Hnil.
        apply (f_equal CompOpp) in Hnil.
        rewrite !CompOpp_involutive in Hnil. now rewrite Hnil.
      * cbn [compare_release]. destruct (y ?= z)%N; auto.
Qed.

Lemma compare_release_lt_trans (a b c : list N) :
  compare_release a b = Lt -> compare_release b c = Lt ->
  compare_release a c = Lt.
Proof.
  revert b c. induction a as [|x a IH]; intros b c Hab Hbc.
  - cbn [compare_release] in *.
    destruct (compare_zero_cases c) as [Hc | Hc]; [|exact Hc].
    rewrite compare_release_antisym,
      (compare_release_zero_l c b Hc), Hab in Hbc.
    discriminate.
  - destruct b as [|y b].
    + rewrite compare_release_nil_r in Hab.
      destruct (compare_zero_cases (x :: a)) as [Hz | Hz];
        rewrite Hz in Hab; discriminate.
    + destruct c as [|z c].
      * rewrite compare_release_nil_r in Hbc.
        destruct (compare_zero_cases (y :: b)) as [Hz | Hz];
          rewrite Hz in Hbc; discriminate.
      * cbn [compare_release] in *.
        destruct (N.compare_spec x y), (N.compare_spec y z),
                 (N.compare_spec x z);
          try lia; try discriminate; try reflexivity.
        eapply IH; eassumption.
Qed.

Lemma consistent_release : consistent_compare compare_release.
Proof.
  split; [exact compare_release_antisym | exact compare_release_eq_congr
         | exact compare_release_lt_trans].
Qed.

Lemma compare_lex (a b : VersionKey) :
  compare a b
  = lex compare_release compare_prerelease
        (release a) (prerelease a) (release b) (prerelease b).
Proof. reflexivity. Qed.

Lemma consistent_key : consistent_compare compare.
Proof.
  split; intros; rewrite !compare_lex in *.
  - apply lex_antisym; [exact consistent_release|].
    apply (cmp_antisym _ consistent_prerelease).
  - revert H. apply lex_eq_congr; [exact consistent_release|].
    apply (cmp_eq_congr _ consistent_prerelease).
  - revert H H0. apply lex_lt_trans; [exact consistent_release|].
    apply (cmp_lt_trans _ consistent_prerelease).
Qed.

(** The order of the resolver is one a stable sort can use. *)
Lemma ltb_strict_weak_order : strict_weak_order ltb.
Proof.
  pose proof consistent_key as Hc.
  assert (Hrefl : forall a, compare a a = Eq).
  { intros a. pose proof (cmp_antisym _ Hc a a) as H.
    destruct (compare a a); try reflexivity; discriminate. }
  split; unfold ltb.
  - intros a. now rewrite Hrefl.
  - intros a b c Hab Hbc.
    destruct (compare a b) eqn:Eab; try discriminate.
    destruct (compare b c) eqn:Ebc; try discriminate.
    now rewrite (cmp_lt_trans _ Hc _ _ _ Eab Ebc).
  - intros a b c Hab Hbc.
    destruct (compare a b) eqn:Eab; try discriminate.
    + now rewrite (cmp_eq_congr _ Hc _ _ c Eab).
    + destruct (compare b c) eqn:Ebc; try discriminate.
      * assert (Ecb : compare c b = Eq)
          by (rewrite (cmp_antisym _ Hc), Ebc; reflexivity).
        rewrite (cmp_antisym _ Hc a c), (cmp_eq_congr _ Hc _ _ a Ecb),
          <- (cmp_antisym _ Hc a b), Eab.
        reflexivity.
      * assert (Hca : compare c a = Lt).
        { apply (cmp_lt_trans _ Hc c b a);
            rewrite (cmp_antisym _ Hc); [rewrite Ebc | rewrite Eab];
            reflexivity. }
        rewrite (cmp_antisym _ Hc), Hca. reflexivity.
Qed.

End VersionFacts.

(** ** The order of versions *)

(** C6: in the version order a pre-release is strictly below the release
    with the same segments, and sorting 2.0.0, 1.0.0, 1.5.0-beta by version
    key gives 1.0.0, 1.5.0-beta, 2.0.0. *)
Theorem prerelease_sorts_below_release :
  (forall (segments : list N) (ids : list VersionResolver.ident),
      VersionResolver.ltb
        (VersionResolver.mkKey segments (Some ids))
        (VersionResolver.mkKey segments None) = true
      /\ VersionResolver.ltb
           (VersionResolver.mkKey segments None)
           (VersionResolver.mkKey segments (Some ids)) = false)
  /\ sort_versions (pkg := VersionResolver.resolver)
                   ["2.0.0"; "1.0.0"; "1.5.0-beta"]
     = Ok ["1.0.0"; "1.5.0-beta"; "2.0.0"]
  /\ sort_versions (pkg := VersionResolver.resolver) ["1.5.0"; "1.5.0-beta"]
     = Ok ["1.5.0-beta"; "1.5.0"].
Proof.
  split; [|split; reflexivity].
  intros segments ids.
  assert (Hrefl : VersionResolver.compare_release segments segments = Eq).
  { pose proof (VersionFacts.compare_release_antisym segments segments) as H.
    destruct (VersionResolver.compare_release segments segments);
      try reflexivity; discriminate. }
  unfold VersionResolver.ltb, VersionResolver.compare. simpl.
  now rewrite Hrefl.
Qed.

(** * Further properties of the program *)

(** ** More on version matching *)

(** X1: the pattern [*] matches every version; a wildcard pattern with a
    shorter prefix matches whatever the longer one matches; and a pattern
    that does not end in [*] (a star elsewhere is an ordinary character)
    matches only the version equal to it. *)
Theorem wildcard_patterns (v : string) :
  version_matches v "*" = true
  /\ (forall q r,
         version_matches v ((q ++ r) ++ "*")%string = true ->
         version_matches v (q ++ "*")%string = true)
  /\ (forall p,
         PyStr.endswith p "*" = false ->
         (version_matches v p = true <-> v = p)).
Proof.
  split; [|split].
  - apply version_matches_iff. right. exists EmptyString, v. now split.
  - intros q r H. apply version_matches_iff in H.
    apply version_matches_iff. right. exists q.
    destruct H as [-> | (q' & t & Hq & ->)].
    + exists (r ++ "*")%string. split; [reflexivity|].
      clear. induction q; simpl; congruence.
    + assert (Heq : (q ++ r)%string = q').
      { rewrite <- (PyStrFacts.drop_last_app (q ++ r) "*"%char), Hq.
        apply PyStrFacts.drop_last_app. }
      subst q'. exists (r ++ t)%string. split; [reflexivity|].
      clear. induction q; simpl; congruence.
  - intros p Hp. unfold version_matches. rewrite Hp. simpl.
    rewrite orb_false_r. apply String.eqb_eq.
Qed.

(** ** More on the search of one repository *)

Lemma or_none_some (s : string) :
  s <> EmptyString -> or_none (Some s) = Some s.
Proof. destruct s; [congruence | reflexivity]. Qed.

Lemma or_none_some_inv (package_version : option string) (pat : string) :
  or_none package_version = Some pat ->
  package_version = Some pat /\ pat <> EmptyString.
Proof.
  destruct package_version as [[|c s]|]; simpl; try discriminate.
  intros [= <-]. split; [reflexivity | discriminate].
Qed.

Section SearchResults.

Context {pkg : Packaging}.
Variable py_str : json -> string.
Variable net : network.

(** A property of every package the loops append holds of the whole
    result. *)
Lemma emit_versions_invariant (P : Package -> Prop) (repo : string)
      (ver : option string) (vs : list json) (acc out : list Package) :
  (forall e p,
      make_package py_str repo e = Ok p ->
      (forall pat, or_none ver = Some pat ->
                   exists v, Py.getitem e "version" = Ok v
                             /\ version_matches_value v pat = Ok true) ->
      P p) ->
  Forall P acc ->
  emit_versions py_str repo ver vs acc = Ok out -> Forall P out.
Proof.
  intros HP. revert acc out.
  induction vs as [|e vs IH]; simpl; intros acc out Hacc H.
  - now injection H as <-.
  - destruct (or_none ver) as [pattern|] eqn:Hver.
    + bind_ok H. bind_ok H. destruct a0; [|eapply IH; eassumption].
      bind_ok H. eapply IH; [|exact H].
      apply Forall_app. split; [exact Hacc|]. constructor; [|constructor].
      apply (HP e); [assumption|].
      intros pat [= <-]. eauto.
    + bind_ok H. eapply IH; [|exact H].
      apply Forall_app. split; [exact Hacc|]. constructor; [|constructor].
      apply (HP e); [assumption|]. discriminate.
Qed.

Lemma emit_packages_invariant (P : Package -> Prop) (repo : string)
      (ver : option string) (ds : list json) (acc out : list Package) :
  (forall e p,
      make_package py_str repo e = Ok p ->
      (forall pat, or_none ver = Some pat ->
                   exists v, Py.getitem e "version" = Ok v
                             /\ version_matches_value v pat = Ok true) ->
      P p) ->
  Forall P acc ->
  emit_packages py_str repo ver ds acc = Ok out -> Forall P out.
Proof.
  intros HP. revert acc out.
  induction ds as [|d ds IH]; simpl; intros acc out Hacc H.
  - now injection H as <-.
  - bind_ok H. bind_ok H. bind_ok H. bind_ok H.
    eapply IH; [|exact H].
    eapply emit_versions_invariant; eassumption.
Qed.

(** [search_body] either ends before reading a search result, with the
    empty list or an exception whatever the version spec is, or returns
    what [collect] reads from a search result that does not depend on the
    spec; it makes one request, to the repository, or two. *)
Lemma search_body_shape (repo package_name : string) (h : history) :
  (exists r h',
      (r = Ok [] \/ exists e, r = Raise e)
      /\ (h' = repo :: h \/ exists u, h' = u :: repo :: h)
      /\ forall ver,
          search_body py_str net repo package_name ver h = (r, h'))
  \/ (exists j u,
         forall ver,
           search_body py_str net repo package_name ver h
           = (collect py_str j repo ver, u :: repo :: h)).
Proof.
  unfold search_body, bind, get_json, lift, ret, raise.
  destruct (net h repo) as [idx| | |];
    try (left; eexists; eexists; split; [|split; [left; reflexivity|]];
         [|intros ver; reflexivity]; eauto; fail).
  destruct (Py.truthy idx); simpl;
    [|left; exists (Ok []), (repo :: h); repeat split; auto].
  destruct (resolve_endpoint idx "SearchQueryService/3.0") as [[url|]|e];
    [| left; exists (Raise UnboundLocalError), (repo :: h);
       repeat split; eauto
     | left; exists (Raise e), (repo :: h); repeat split; eauto].
  destruct (Py.truthy url); simpl;
    [|left; exists (Ok []), (repo :: h); repeat split; auto].
  destruct (net (repo :: h) (search_string py_str url package_name))
    as [j| | |];
    try (left; eexists; eexists; split; [|split; [right; eexists; reflexivity|]];
         [|intros ver; reflexivity]; eauto; fail).
  destruct (Py.truthy j); simpl.
  - right. exists j, (search_string py_str url package_name). reflexivity.
  - left. exists (Ok []), (search_string py_str url package_name :: repo :: h).
    repeat split; eauto.
Qed.

Lemma package_search_invariant (P : Package -> Prop) (repo : string)
      (package_name ver : option string) (h h' : history)
      (out : list Package) :
  (forall e p,
      make_package py_str repo e = Ok p ->
      (forall pat, or_none ver = Some pat ->
                   exists v, Py.getitem e "version" = Ok v
                             /\ version_matches_value v pat = Ok true) ->
      P p) ->
  package_search py_str net repo package_name ver h = (Ok out, h') ->
  Forall P out.
Proof.
  intros HP H. unfold package_search in H.
  apply bind_ok_inv in H as (n & h1 & _ & H).
  destruct (search_body_shape repo n h1)
    as [(r & h2 & Hr & _ & Hbody) | (j & u & Hbody)];
    rewrite Hbody in H; injection H as H _.
  - destruct Hr as [-> | [e ->]]; [|discriminate].
    injection H as <-. constructor.
  - unfold collect in H. bind_ok H. bind_ok H. bind_ok H.
    eapply emit_packages_invariant; [exact HP | constructor | exact H].
Qed.

(** X2: every package [package_search] returns carries the URL of the
    repository that was searched. *)
Theorem package_search_tags_repository
        (repo : string) (package_name ver : option string) (h h' : history)
        (out : list Package) :
  package_search py_str net repo package_name ver h = (Ok out, h') ->
  Forall (fun p => repository p = repo) out.
Proof.
  apply package_search_invariant.
  intros e p Hp _. unfold make_package in Hp.
  bind_ok Hp. bind_ok Hp. now injection Hp as <-.
Qed.

(** X3: with a version spec, every package [package_search] returns has a
    version the spec matches. *)
Theorem package_search_results_match_spec
        (repo : string) (package_name : option string) (pattern : string)
        (h h' : history) (out : list Package) :
  package_search py_str net repo package_name (Some pattern) h
  = (Ok out, h') ->
  Forall (fun p => version_matches (version p) pattern = true) out.
Proof.
  intros H.
  assert (Hpat : or_none (Some pattern) = Some pattern).
  { destruct pattern; [|reflexivity].
    unfold package_search, check_arguments in H.
    destruct package_name as [[|c n]|]; discriminate. }
  revert H. apply package_search_invariant.
  intros e p Hp Hmatch.
  destruct (Hmatch pattern Hpat) as (v & Hv & Hm).
  destruct v; simpl in Hm;
    try (destruct (PyStr.endswith pattern "*"); discriminate).
  rewrite (make_package_version py_str repo e p s Hp Hv).
  now injection Hm.
Qed.

Lemma emit_versions_filter (repo pattern : string) (vs : list json)
      (acc ps : list Package) :
  pattern <> EmptyString ->
  Forall (fun e => exists s, Py.getitem e "version" = Ok (JStr s)) vs ->
  mapM (make_package py_str repo) vs = Ok ps ->
  emit_versions py_str repo (Some pattern) vs acc
  = Ok (acc ++ filter (fun p => version_matches (version p) pattern) ps).
Proof.
  intros Hpat Hvs. revert acc ps.
  induction Hvs as [|e vs [s Hs] _ IH]; intros acc ps H;
    cbn [mapM] in H; cbn [emit_versions].
  - injection H as <-. simpl. now rewrite app_nil_r.
  - bind_ok H. bind_ok H. injection H as <-. rename a into p, a0 into ps.
    rewrite (or_none_some _ Hpat), Hs. simpl.
    rewrite (make_package_version py_str repo e p s Hstep Hs).
    destruct (version_matches s pattern).
    + rewrite Hstep. simpl. rewrite (IH _ _ Hstep0).
      now rewrite <- app_assoc.
    + apply IH. exact Hstep0.
Qed.

Lemma emit_packages_filter (repo pattern : string) (ds : list json)
      (acc out : list Package) :
  pattern <> EmptyString ->
  emit_packages py_str repo None ds acc = Ok out ->
  exists tail,
    out = acc ++ tail
    /\ forall acc',
        emit_packages py_str repo (Some pattern) ds acc'
        = Ok (acc'
              ++ filter (fun p => version_matches (version p) pattern) tail).
Proof.
  intros Hpat. revert acc out.
  induction ds as [|d ds IH]; simpl; intros acc out H.
  - injection H as <-. exists []. split; [now rewrite app_nil_r|].
    intros acc'. simpl. now rewrite app_nil_r.
  - bind_ok H. bind_ok H. bind_ok H. bind_ok H.
    rename a into versions, a0 into vs, a1 into vs', a2 into acc1.
    rewrite (emit_versions_all py_str repo None vs' acc eq_refl) in Hstep2.
    apply rbind_ok in Hstep2 as (ps & Hps & Hacc1). injection Hacc1 as <-.
    destruct (IH _ _ H) as (tail & -> & Hsome).
    exists (ps ++ tail). split; [now rewrite app_assoc|].
    intros acc'. rewrite Hstep. simpl. rewrite Hstep0. simpl.
    rewrite Hstep1. simpl.
    assert (Hstr : Forall (fun e => exists s,
                               Py.getitem e "version" = Ok (JStr s)) vs').
    { apply SortFacts.sorted_perm in Hstep1 as [Hperm Hkeys].
      eapply Permutation_Forall; [exact Hperm|].
      eapply Forall_impl; [|exact Hkeys].
      intros e [k He]. bind_ok He.
      apply version_sort_key_ok in He as (s & -> & _). eauto. }
    rewrite (emit_versions_filter repo pattern vs' acc' ps Hpat Hstr Hps).
    simpl. rewrite Hsome, filter_app. now rewrite app_assoc.
Qed.

(** X4: when the search without a version spec returns the list [found],
    the same search with a spec (same network, same history) makes the
    same requests and returns exactly the packages of [found] whose version
    the spec matches, in the same order. *)
Theorem spec_filters_no_spec_result
        (repo package_name pattern : string) (h h' : history)
        (found : list Package) :
  pattern <> EmptyString ->
  package_search py_str net repo (Some package_name) None h
  = (Ok found, h') ->
  package_search py_str net repo (Some package_name) (Some pattern) h
  = (Ok (filter (fun p => version_matches (version p) pattern) found), h').
Proof.
  intros Hpat H.
  assert (Hname : package_name <> EmptyString).
  { intros ->. discriminate. }
  rewrite package_search_body in H by (auto; discriminate).
  rewrite package_search_body by (auto; congruence).
  destruct (search_body_shape repo package_name h)
    as [(r & h2 & Hr & _ & Hbody) | (j & u & Hbody)];
    rewrite Hbody in *; injection H as H <-.
  - destruct Hr as [-> | [e ->]]; [|discriminate].
    now injection H as <-.
  - f_equal. unfold collect in *.
    destruct (Py.getitem j "data") as [data|]; [|discriminate]. simpl in *.
    destruct (Py.iter data) as [ds|]; [|discriminate]. simpl in *.
    destruct (Py.sorted Py.lt (fun p => Py.getitem p "id") ds) as [ds'|];
      [|discriminate].
    simpl in *.
    destruct (emit_packages_filter repo pattern ds' [] found Hpat H)
      as (tail & -> & Hsome).
    now rewrite Hsome.
Qed.

(** X5: whatever its outcome, [package_search] makes at most two requests,
    the first of them to the repository URL, and removes nothing from the
    history. *)
Theorem package_search_requests
        (repo : string) (package_name ver : option string) (h h' : history)
        (r : result (list Package)) :
  package_search py_str net repo package_name ver h = (r, h') ->
  h' = h \/ h' = repo :: h \/ exists u, h' = u :: repo :: h.
Proof.
  unfold package_search, bind. intros H.
  destruct (check_arguments package_name ver h) as [[n|e] h1] eqn:Hcheck.
  - assert (h1 = h) as ->.
    { unfold check_arguments in Hcheck.
      destruct package_name as [[|c m]|]; try discriminate.
      destruct ver as [[|d v]|]; try discriminate;
        now injection Hcheck. }
    destruct (search_body_shape repo n h)
      as [(r' & h2 & _ & Hh & Hbody) | (j & u & Hbody)];
      rewrite Hbody in H; injection H as _ <-.
    + destruct Hh as [-> | [u ->]]; eauto.
    + eauto.
  - injection H as _ <-. left.
    unfold check_arguments in Hcheck.
    destruct package_name as [[|c m]|]; try (now injection Hcheck).
    destruct ver as [[|d v]|]; try discriminate; now injection Hcheck.
Qed.

End SearchResults.

(** ** Edge cases of the search of one repository *)

Section SearchEdges.

Context {pkg : Packaging}.
Variable py_str : json -> string.
Variable net : network.

(** X6: when the search service the index names has an empty (falsy)
    endpoint, the repository contributes nothing and no search request is
    sent. *)
Theorem empty_search_endpoint_contributes_nothing
        (repo package_name : string) (ver : option string) (h : history)
        (idx url : json) :
  package_name <> EmptyString -> ver <> Some EmptyString ->
  net h repo = RespJSON idx ->
  Py.truthy idx = true ->
  resolve_endpoint idx "SearchQueryService/3.0" = Ok (Some url) ->
  Py.truthy url = false ->
  package_search py_str net repo (Some package_name) ver h
  = (Ok [], repo :: h).
Proof.
  intros Hname Hver Hidx Tidx Hurl Turl.
  rewrite package_search_body by assumption.
  unfold search_body, bind, get_json, lift.
  rewrite Hidx, Tidx. simpl. rewrite Hurl, Turl. reflexivity.
Qed.

(** X7: a search answer that is a non-empty JSON object without the key
    [data] makes [package_search] raise [KeyError], and one that is a
    non-empty list raises [TypeError]: the shape of the answer is not
    checked. *)
Theorem search_answer_without_data_raises
        (repo package_name : string) (ver : option string) (h : history)
        (idx url j : json) :
  package_name <> EmptyString -> ver <> Some EmptyString ->
  serves py_str net h repo package_name idx url j ->
  let h' := search_string py_str url package_name :: repo :: h in
  (forall fields,
      j = JObj fields -> Py.dict_get fields "data" = None ->
      package_search py_str net repo (Some package_name) ver h
      = (Raise KeyError, h'))
  /\ (forall items,
         j = JArr items ->
         package_search py_str net repo (Some package_name) ver h
         = (Raise TypeError, h')).
Proof.
  intros Hname Hver Hserves h'.
  rewrite (package_search_serves _ _ _ _ _ _ _ _ _ Hname Hver Hserves).
  split.
  - intros fields -> Hdata. unfold collect. simpl. now rewrite Hdata.
  - intros items ->. reflexivity.
Qed.

(** X8: a repository whose index cannot be fetched (transport failure or
    non-2xx status) does not stop the commands: they go on with the
    remaining repositories as if it had not been listed, one request
    later. *)
Theorem fetch_failure_is_skipped
        (repo package_name : string) (package_version : option string)
        (rest : list string) (h : history) :
  package_name <> EmptyString ->
  net h repo = RespURLError
  \/ (exists status, net h repo = RespHTTPError status) ->
  search_command py_str net (repo :: rest) package_name package_version h
  = search_command py_str net rest package_name package_version (repo :: h)
  /\ download_command py_str net (repo :: rest) package_name package_version h
     = download_command py_str net rest package_name package_version
                        (repo :: h).
Proof.
  intros Hname Hfail.
  pose proof (index_fetch_failure_contributes_nothing py_str net repo
                package_name (or_none package_version) h Hname
                (or_none_not_empty _) Hfail) as Hnothing.
  assert (Hloop : forall acc,
             search_loop py_str net (repo :: rest) (Some package_name)
                         (or_none package_version) acc h
             = search_loop py_str net rest (Some package_name)
                           (or_none package_version) acc (repo :: h)).
  { intros acc. cbn [search_loop].
    rewrite (bind_ok_eq _ _ _ _ _ Hnothing). now rewrite app_nil_r. }
  unfold search_command, download_command, bind.
  rewrite Hloop. split; reflexivity.
Qed.

End SearchEdges.

(** ** The download *)

Module PathFacts.
Import PosixPath.

Lemma has_slash_app (a b : string) :
  has_slash (a ++ b) = has_slash a || has_slash b.
Proof.
  induction a as [|c a IH]; simpl; [reflexivity|].
  now rewrite IH, orb_assoc.
Qed.

Lemma basename_no_slash (s : string) :
  has_slash s = false -> basename s = s.
Proof.
  destruct s as [|c s]; simpl; [reflexivity|].
  intros H. apply orb_false_iff in H as [Hc Hs]. now rewrite Hs, Hc.
Qed.

Lemma has_slash_basename (s : string) : has_slash (basename s) = false.
Proof.
  induction s as [|c s IH]; simpl; [reflexivity|].
  destruct (has_slash s) eqn:Hs; [exact IH|].
  destruct (Ascii.eqb c "/") eqn:Hc; [exact Hs|].
  simpl. now rewrite Hc, Hs.
Qed.

(** Only what follows the last slash counts. *)
Lemma basename_after_slash (a b : string) :
  basename (a ++ String "/" b) = basename b.
Proof.
  induction a as [|c a IH]; simpl.
  - destruct (has_slash b) eqn:Hb; [reflexivity|].
    now rewrite basename_no_slash.
  - rewrite has_slash_app. simpl. rewrite orb_true_r. exact IH.
Qed.

Lemma lower_ascii_slash (c : ascii) :
  Ascii.eqb (PyStr.lower_ascii c) "/" = Ascii.eqb c "/".
Proof.
  unfold PyStr.lower_ascii.
  destruct (Nat.leb 65 (nat_of_ascii c) && Nat.leb (nat_of_ascii c) 90)
    eqn:Hup; [|reflexivity].
  apply andb_true_iff in Hup as [Hlo Hhi].
  apply Nat.leb_le in Hlo, Hhi.
  assert (Hc : Ascii.eqb c "/" = false).
  { apply Ascii.eqb_neq. intros ->.
    change (nat_of_ascii "/") with 47 in Hlo. lia. }
  rewrite Hc. apply Ascii.eqb_neq. intros Heq.
  apply (f_equal nat_of_ascii) in Heq.
  rewrite nat_ascii_embedding in Heq by lia.
  change (nat_of_ascii "/") with 47 in Heq. lia.
Qed.

Lemma has_slash_lower (s : string) :
  has_slash (PyStr.lower s) = has_slash s.
Proof.
  induction s as [|c s IH]; simpl; [reflexivity|].
  now rewrite lower_ascii_slash, IH.
Qed.

End PathFacts.

(** X13: for a package whose name and version are ASCII text, the file
    the download is saved to is named after what follows the last slash of
    the lowercased name, a dot, the lowercased version and [.nupkg]; the
    name never contains a slash, whatever the content service URL is, and
    when neither the package name nor the version contains a slash it is
    the whole of [name.lower() + "." + version.lower() + ".nupkg"]. *)
Theorem download_filename_spec
        (py_str : json -> string) (content_service_url : json)
        (package : Package) :
  isascii (name package) = true ->
  isascii (version package) = true ->
  download_filename py_str content_service_url package
  = PosixPath.basename
      (PyStr.lower (name package) ++ "." ++ PyStr.lower (version package)
       ++ ".nupkg")%string
  /\ PosixPath.has_slash
       (download_filename py_str content_service_url package) = false
  /\ (PosixPath.has_slash (name package) = false ->
      PosixPath.has_slash (version package) = false ->
      download_filename py_str content_service_url package
      = (PyStr.lower (name package) ++ "." ++ PyStr.lower (version package)
         ++ ".nupkg")%string).
Proof.
  intros _ _.
  assert (Heq : download_filename py_str content_service_url package
                = PosixPath.basename
                    (PyStr.lower (name package) ++ "."
                     ++ PyStr.lower (version package) ++ ".nupkg")%string).
  { unfold download_filename, download_url. cbn [String.append].
    now rewrite !PathFacts.basename_after_slash. }
  split; [exact Heq|]. split.
  - unfold download_filename. apply PathFacts.has_slash_basename.
  - intros Hname Hversion. rewrite Heq.
    apply PathFacts.basename_no_slash.
    rewrite !PathFacts.has_slash_app, !PathFacts.has_slash_lower.
    now rewrite Hname, Hversion.
Qed.

Section Download.

Context {pkg : Packaging}.
Variable py_str : json -> string.
Variable net : network.

(** After the searches, [download_command] is the lookup of the content
    service for the selected package. *)
Lemma download_command_selected
      (repository_urls : list string) (package_name : string)
      (package_version : option string) (h h' : history)
      (cs : list (list Package)) (package : Package) :
  searches py_str net (Some package_name) (or_none package_version)
           h repository_urls cs h' ->
  select_for_download (concat cs) = Ok package ->
  download_command py_str net repository_urls package_name package_version h
  = content_url py_str net package h'.
Proof.
  intros Hsearch Hselect. unfold download_command.
  rewrite (bind_ok_eq _ _ _ _ _
             (search_loop_searches _ _ _ _ _ _ _ _ [] Hsearch)).
  simpl. unfold bind at 1, lift. now rewrite Hselect.
Qed.

Lemma searches_tagged (package_name ver : option string) (h h' : history)
      (repos : list string) (cs : list (list Package)) :
  searches py_str net package_name ver h repos cs h' ->
  Forall (fun p => In (repository p) repos) (concat cs).
Proof.
  induction 1 as [|h repo rest found h1 cs h2 Hfound _ IH]; simpl.
  - constructor.
  - apply Forall_app. split.
    + eapply Forall_impl;
        [|eapply (package_search_invariant py_str net
                    (fun p => repository p = repo)); [|exact Hfound]].
      * intros p ->. now left.
      * intros e p Hp _. unfold make_package in Hp.
        bind_ok Hp. bind_ok Hp. now injection Hp as <-.
    + eapply Forall_impl; [|exact IH]. intros p Hp. now right.
Qed.

(** X9: [download_command] fetches the index of the selected package's
    repository again and does not check the answer: when that request
    fails (transport failure, non-2xx status) or answers [null], the
    command ends with [TypeError]. *)
Theorem download_index_fetch_failure_raises
        (repository_urls : list string) (package_name : string)
        (package_version : option string) (h h' : history)
        (cs : list (list Package)) (package : Package) :
  searches py_str net (Some package_name) (or_none package_version)
           h repository_urls cs h' ->
  select_for_download (concat cs) = Ok package ->
  net h' (repository package) = RespURLError
  \/ (exists status, net h' (repository package) = RespHTTPError status)
  \/ net h' (repository package) = RespJSON JNull ->
  download_command py_str net repository_urls package_name package_version h
  = (Raise TypeError, repository package :: h').
Proof.
  intros Hsearch Hselect Hfail.
  rewrite (download_command_selected _ _ _ _ _ _ _ Hsearch Hselect).
  unfold content_url, bind, get_json.
  destruct Hfail as [-> | [[status ->] | ->]]; reflexivity.
Qed.

(** X10: when the index of the selected package's repository has no
    resource of type PackageBaseAddress/3.0, the content service variable
    stays unbound and [download_command] ends with
    [UnboundLocalError]. *)
Theorem download_missing_content_service_raises
        (repository_urls : list string) (package_name : string)
        (package_version : option string) (h h' : history)
        (cs : list (list Package)) (package : Package)
        (idx : json) (rs : list json) :
  searches py_str net (Some package_name) (or_none package_version)
           h repository_urls cs h' ->
  select_for_download (concat cs) = Ok package ->
  net h' (repository package) = RespJSON idx ->
  Shape.index idx rs ->
  Forall (Shape.resource_matching "PackageBaseAddress/3.0" false) rs ->
  download_command py_str net repository_urls package_name package_version h
  = (Raise UnboundLocalError, repository package :: h').
Proof.
  intros Hsearch Hselect Hnet Hidx Hrs.
  rewrite (download_command_selected _ _ _ _ _ _ _ Hsearch Hselect).
  unfold content_url, bind, get_json, lift. rewrite Hnet.
  unfold resolve_endpoint. rewrite Hidx. simpl.
  now rewrite (service_loop_no_match _ _ _ Hrs).
Qed.

(** X11: when the content service found has an empty (falsy) endpoint,
    the error message of line 125 is built from [repository_url], a name
    [download_command] does not define, and the command ends with
    [NameError]. *)
Theorem download_empty_content_endpoint_raises
        (repository_urls : list string) (package_name : string)
        (package_version : option string) (h h' : history)
        (cs : list (list Package)) (package : Package) (idx url : json) :
  searches py_str net (Some package_name) (or_none package_version)
           h repository_urls cs h' ->
  select_for_download (concat cs) = Ok package ->
  net h' (repository package) = RespJSON idx ->
  resolve_endpoint idx "PackageBaseAddress/3.0" = Ok (Some url) ->
  Py.truthy url = false ->
  download_command py_str net repository_urls package_name package_version h
  = (Raise NameError, repository package :: h').
Proof.
  intros Hsearch Hselect Hnet Hres Hurl.
  rewrite (download_command_selected _ _ _ _ _ _ _ Hsearch Hselect).
  unfold content_url, bind, get_json, lift.
  now rewrite Hnet, Hres, Hurl.
Qed.

(** X12: when the searches found something, [download_command] selects a
    package of lowest version among all those found, asks the repository
    that package came from (one of the repositories searched) for its
    index, and, given a content service with endpoint [base] there and a
    package whose name and version are ASCII text, builds on line 130 the
    URL made of [base] and that package, after exactly one more request;
    that URL is the one it then hands to [urlretrieve]. *)
Theorem download_selects_lowest_and_builds_url
        (repository_urls : list string) (package_name : string)
        (package_version : option string) (h h' : history)
        (cs : list (list Package)) :
  strict_weak_order version_lt ->
  searches py_str net (Some package_name) (or_none package_version)
           h repository_urls cs h' ->
  concat cs <> [] ->
  exists package,
    select_for_download (concat cs) = Ok package
    /\ In package (concat cs)
    /\ Forall (version_le package) (concat cs)
    /\ In (repository package) repository_urls
    /\ forall idx base,
        isascii (name package) = true ->
        isascii (version package) = true ->
        net h' (repository package) = RespJSON idx ->
        resolve_endpoint idx "PackageBaseAddress/3.0"
        = Ok (Some (JStr base)) ->
        base <> EmptyString ->
        download_command py_str net repository_urls package_name
                         package_version h
        = (Ok (download_url py_str (JStr base) package),
           repository package :: h').
Proof.
  intros Hswo Hsearch Hne.
  pose proof (searches_parseable _ _ _ _ _ _ _ _ Hsearch) as Hparse.
  destruct (select_for_download_lowest _ Hswo Hparse Hne)
    as (package & Hselect & Hin & Hlow).
  exists package. repeat split; auto.
  - pose proof (searches_tagged _ _ _ _ _ _ Hsearch) as Htag.
    rewrite Forall_forall in Htag. now apply Htag.
  - intros idx base _ _ Hnet Hres Hbase.
    rewrite (download_command_selected _ _ _ _ _ _ _ Hsearch Hselect).
    now apply content_url_resolved with (idx := idx).
Qed.

End Download.

(** ** The catalog and the selection of repositories *)

Lemma catalog_get_in (catalog : list (string * string)) (k v : string) :
  catalog_get catalog k = Some v -> In (k, v) catalog.
Proof.
  induction catalog as [|[k' v'] catalog IH]; simpl; [discriminate|].
  destruct (String.eqb k' k) eqn:Hk.
  - apply String.eqb_eq in Hk. intros [= <-]. left. now subst.
  - intros H. right. now apply IH.
Qed.

(** Every alias of the catalog resolves to its URL, and every URL of the
    catalog is non-empty and resolves to itself. *)
Lemma catalog_entries (alias url : string) :
  In (alias, url) REPOSITORIES ->
  get_repository_url (Some alias) = Ok url
  /\ url <> EmptyString
  /\ get_repository_url (Some url) = Ok url.
Proof.
  unfold REPOSITORIES. simpl.
  intros H.
  repeat (destruct H as [H | H];
          [injection H as <- <-;
           split; [reflexivity | split; [discriminate | reflexivity]]|]).
  contradiction.
Qed.

Lemma get_repository_url_unknown (r : string) :
  r <> EmptyString -> catalog_get REPOSITORIES r = None ->
  get_repository_url (Some r) = Ok r.
Proof.
  intros Hr Hget. unfold get_repository_url.
  now rewrite (or_none_some _ Hr), Hget.
Qed.

Lemma get_repository_url_default (repository : option string) :
  or_none repository = None ->
  get_repository_url repository = Ok "https://api.nuget.org/v3/index.json".
Proof. unfold get_repository_url. now intros ->. Qed.

(** [get_repository_url] always returns, and returns a non-empty URL that
    resolves to itself. *)
Lemma get_repository_url_total (repository : option string) :
  exists url,
    get_repository_url repository = Ok url
    /\ url <> EmptyString
    /\ get_repository_url (Some url) = Ok url.
Proof.
  destruct (or_none repository) as [r|] eqn:Hr.
  - apply or_none_some_inv in Hr as [-> Hr].
    destruct (catalog_get REPOSITORIES r) as [url|] eqn:Hget.
    + exists url. apply catalog_get_in in Hget.
      apply catalog_entries in Hget as (Halias & Hurl & Hself). auto.
    + exists r. rewrite (get_repository_url_unknown r Hr Hget). auto.
  - exists "https://api.nuget.org/v3/index.json".
    split; [now apply get_repository_url_default|].
    split; [discriminate | reflexivity].
Qed.

(** X14: [get_repository_url] never raises and never returns the empty
    string, and resolving its result again changes nothing; without an
    argument (or with the empty string) it gives the URL of nuget.org, an
    alias of the catalog gives the URL listed for it, and any other
    non-empty string is returned as it is. *)
Theorem get_repository_url_resolves (repository : option string) :
  (exists url,
      get_repository_url repository = Ok url
      /\ url <> EmptyString
      /\ get_repository_url (Some url) = Ok url)
  /\ (or_none repository = None ->
      get_repository_url repository
      = Ok "https://api.nuget.org/v3/index.json")
  /\ (forall alias url,
         repository = Some alias -> In (alias, url) REPOSITORIES ->
         get_repository_url repository = Ok url)
  /\ (forall r,
         repository = Some r -> r <> EmptyString ->
         (forall url, ~ In (r, url) REPOSITORIES) ->
         get_repository_url repository = Ok r).
Proof.
  split; [apply get_repository_url_total|].
  split; [apply get_repository_url_default|]. split.
  - intros alias url -> Hin. now apply catalog_entries.
  - intros r -> Hr Hout. apply get_repository_url_unknown; [exact Hr|].
    destruct (catalog_get REPOSITORIES r) as [url|] eqn:Hget; [|reflexivity].
    apply catalog_get_in in Hget. now apply Hout in Hget.
Qed.

(** X15: [list_repositories_command] prints one line per catalog entry, in
    catalog order, of the form [url (alias: alias)], and each alias it
    prints resolves through [get_repository_url] to the URL printed beside
    it. *)
Theorem list_repositories_matches_aliases :
  Forall2 (fun line kv =>
             line = (snd kv ++ " (alias: " ++ fst kv ++ ")")%string
             /\ get_repository_url (Some (fst kv)) = Ok (snd kv))
          list_repositories_command REPOSITORIES.
Proof.
  unfold list_repositories_command.
  assert (H : forall l,
             (forall kv, In kv l ->
                         get_repository_url (Some (fst kv)) = Ok (snd kv)) ->
             Forall2 (fun line kv =>
                        line = (snd kv ++ " (alias: " ++ fst kv ++ ")")%string
                        /\ get_repository_url (Some (fst kv)) = Ok (snd kv))
                     (map (fun kv => (snd kv ++ " (alias: " ++ fst kv ++ ")")
                                       %string) l) l).
  { induction l as [|kv l IH]; intros Hl; simpl; constructor.
    - split; [reflexivity | apply Hl; now left].
    - apply IH. intros kv' Hin. apply Hl. now right. }
  apply H. intros [alias url] Hin. now apply catalog_entries.
Qed.

Module StripFacts.
Import PyLines.

Lemma lstrip_spec (s : string) :
  exists a,
    s = (a ++ lstrip s)%string
    /\ all_space a = true
    /\ forall c rest, lstrip s = String c rest -> is_space c = false.
Proof.
  induction s as [|c s (a & Hs & Ha & Hfirst)]; simpl.
  - exists EmptyString. repeat split. discriminate.
  - destruct (is_space c) eqn:Hc.
    + exists (String c a). simpl. rewrite Hc, Ha. repeat split; auto.
      now rewrite <- Hs.
    + exists EmptyString. repeat split. intros c' rest [= <- _]. exact Hc.
Qed.

Lemma last_char_cons (c d e : ascii) (rest front : string) :
  String c (String d rest) = (front ++ String e EmptyString)%string ->
  exists front', front = String c front'
                 /\ String d rest = (front' ++ String e EmptyString)%string.
Proof.
  destruct front as [|c' front']; simpl; [discriminate|].
  intros [= <- H]. eauto.
Qed.

Lemma rstrip_spec (s : string) :
  exists b,
    s = (rstrip s ++ b)%string
    /\ all_space b = true
    /\ forall front c,
        rstrip s = (front ++ String c EmptyString)%string ->
        is_space c = false.
Proof.
  induction s as [|c s (b & Hs & Hb & Hlast)]; simpl.
  - exists EmptyString. repeat split. intros [|? ?] ?; discriminate.
  - destruct (rstrip s) as [|d r] eqn:Hr.
    + simpl in Hs. subst s. destruct (is_space c) eqn:Hc.
      * exists (String c b). simpl. rewrite Hc, Hb. repeat split.
        intros [|? ?] ?; discriminate.
      * exists b. repeat split; auto.
        intros [|c' [|? ?]] e; simpl; try discriminate.
        now intros [= <-].
    + exists b. split; [simpl; f_equal; exact Hs|]. split; [exact Hb|].
      intros front e Hfront.
      apply last_char_cons in Hfront as (front' & _ & Hfront).
      now apply (Hlast front' e).
Qed.

(** [rstrip] keeps the first character of what it leaves. *)
Lemma rstrip_first (s : string) (c : ascii) (rest : string) :
  rstrip s = String c rest -> exists rest', s = String c rest'.
Proof.
  destruct s as [|d s]; simpl; [discriminate|].
  destruct (rstrip s); [destruct (is_space d)|];
    try discriminate; intros [= <- _]; eauto.
Qed.

Lemma append_assoc (a b c : string) :
  ((a ++ b) ++ c)%string = (a ++ (b ++ c))%string.
Proof. induction a; simpl; congruence. Qed.

(** [strip] removes whitespace from both ends and nothing else. *)
Lemma strip_spec (s : string) :
  exists a b,
    s = (a ++ strip s ++ b)%string
    /\ all_space a = true /\ all_space b = true
    /\ trimmed (strip s).
Proof.
  unfold strip.
  destruct (lstrip_spec s) as (a & Hs & Ha & Hfirst).
  destruct (rstrip_spec (lstrip s)) as (b & Ht & Hb & Hlast).
  exists a, b. repeat split; auto.
  - now rewrite <- Ht.
  - intros c rest Hc. apply rstrip_first in Hc as [rest' Hc].
    now apply (Hfirst c rest').
Qed.

Lemma strip_all_space (s : string) : all_space s = true -> strip s = EmptyString.
Proof.
  unfold strip. induction s as [|c s IH]; simpl; [reflexivity|].
  intros H. apply andb_true_iff in H as [Hc Hs]. rewrite Hc. now apply IH.
Qed.

End StripFacts.

(** X16: [repositories_from_args] raises nothing of its own, in
    particular no [KeyError] from the catalog; it fails exactly when no
    repository is named, a list file is, and reading that file fails, and
    then with the exception of the reading, whichever it is; a named
    (non-empty) repository gives exactly one non-empty URL whatever the
    list-file argument and the file system are, and with neither selector
    the result is the list of catalog URLs in catalog order. *)
Theorem repositories_from_args_selectors (fs : file_system) (args : Args) :
  (forall e, repositories_from_args fs args <> SelectionRaises e)
  /\ (forall e,
         repositories_from_args fs args = SelectionReadFails e ->
         or_none (args_repository args) = None
         /\ exists path, or_none (args_repository_list args) = Some path
                         /\ fs path = FileRaises e)
  /\ (forall path e,
         or_none (args_repository args) = None ->
         or_none (args_repository_list args) = Some path ->
         fs path = FileRaises e ->
         repositories_from_args fs args = SelectionReadFails e)
  /\ (forall r,
         args_repository args = Some r -> r <> EmptyString ->
         exists url,
           repositories_from_args fs args = Selected [url]
           /\ get_repository_url (Some r) = Ok url
           /\ url <> EmptyString)
  /\ (or_none (args_repository args) = None ->
      or_none (args_repository_list args) = None ->
      repositories_from_args fs args = Selected (map snd REPOSITORIES)).
Proof.
  unfold repositories_from_args.
  destruct (get_repository_url_total (args_repository args))
    as (url & Hurl & Hne & _).
  split; [|split; [|split; [|split]]].
  - intros e. rewrite Hurl.
    destruct (or_none (args_repository args)); [discriminate|].
    destruct (or_none (args_repository_list args)) as [path|];
      [destruct (fs path)|]; discriminate.
  - intros e H. rewrite Hurl in H.
    destruct (or_none (args_repository args)); [discriminate|].
    split; [reflexivity|].
    destruct (or_none (args_repository_list args)) as [path|];
      [|discriminate].
    exists path. split; [reflexivity|].
    destruct (fs path); [discriminate | now injection H as <-].
  - intros path e -> -> ->. reflexivity.
  - intros r Hr Hnonempty. exists url. rewrite Hurl, Hr in *.
    rewrite (or_none_some _ Hnonempty). auto.
  - intros -> ->. reflexivity.
Qed.

(** X17: with a list file of ASCII text and no named repository, the
    result has one entry per line of the file, in order; each entry is its
    line without the whitespace at both ends (so without the line end),
    and a blank line gives an empty entry that stays in the list. *)
Theorem list_file_entries_are_stripped
        (fs : file_system) (args : Args) (path : string)
        (lines : list string) :
  or_none (args_repository args) = None ->
  or_none (args_repository_list args) = Some path ->
  fs path = FileLines lines ->
  Forall (fun line => isascii line = true) lines ->
  exists urls,
    repositories_from_args fs args = Selected urls
    /\ Forall2 (fun line url =>
                  PyLines.trimmed url
                  /\ (exists a b,
                         line = (a ++ url ++ b)%string
                         /\ PyLines.all_space a = true
                         /\ PyLines.all_space b = true)
                  /\ (PyLines.all_space line = true -> url = EmptyString))
               lines urls.
Proof.
  intros Hrepo Hlist Hfs _. exists (map PyLines.strip lines). split.
  - unfold repositories_from_args. now rewrite Hrepo, Hlist, Hfs.
  - clear. induction lines as [|line lines IH]; simpl; constructor; auto.
    destruct (StripFacts.strip_spec line) as (a & b & Hline & Ha & Hb & Ht).
    split; [exact Ht|]. split; [now exists a, b|].
    apply StripFacts.strip_all_space.
Qed.

(** ** The order of the packages one repository contributes *)

Lemma Forall2_Forall {A B : Type} (Q : A -> B -> Prop)
      (P : A -> Prop) (P' : B -> Prop) (l : list A) (l' : list B) :
  (forall x x', Q x x' -> P x -> P' x') ->
  Forall2 Q l l' -> Forall P l -> Forall P' l'.
Proof.
  intros HQ H. induction H as [|x x' l l' Hx _ IH]; intros HP;
    [constructor|].
  inversion HP; subst. constructor; eauto.
Qed.

(** A sorted list stays sorted through an element-wise relation that
    carries the order over. *)
Lemma StronglySorted_Forall2 {A B : Type} (Q : A -> B -> Prop)
      (R : A -> A -> Prop) (R' : B -> B -> Prop)
      (l : list A) (l' : list B) :
  (forall x y x' y', Q x x' -> Q y y' -> R x y -> R' x' y') ->
  Forall2 Q l l' -> StronglySorted R l -> StronglySorted R' l'.
Proof.
  intros HQ H. induction H as [|x x' l l' Hx Hl IH]; intros Hs;
    [constructor|].
  inversion Hs as [|? ? Hrest Hfirst]; subst.
  constructor; [now apply IH|].
  eapply Forall2_Forall; [|exact Hl|exact Hfirst].
  intros y y' Hy Hxy. exact (HQ _ _ _ _ Hx Hy Hxy).
Qed.

Lemma Forall2_map_snd {K A : Type} (inv : K * A -> Prop) (l : list (K * A)) :
  Forall inv l -> Forall2 (fun x a => inv x /\ a = snd x) l (map snd l).
Proof. induction 1; simpl; constructor; auto. Qed.

(** The order [<] of a consistent three-way comparison is one a stable
    sort can use. *)
Lemma consistent_strict_weak_order {A : Type} (cmp : A -> A -> comparison) :
  consistent_compare cmp ->
  strict_weak_order
    (fun a b => match cmp a b with Lt => true | _ => false end).
Proof.
  intros Hc.
  assert (Hrefl : forall a, cmp a a = Eq).
  { intros a. pose proof (cmp_antisym _ Hc a a) as H.
    destruct (cmp a a); try reflexivity; discriminate. }
  split.
  - intros a. now rewrite Hrefl.
  - intros a b c Hab Hbc.
    destruct (cmp a b) eqn:Eab; try discriminate.
    destruct (cmp b c) eqn:Ebc; try discriminate.
    now rewrite (cmp_lt_trans _ Hc _ _ _ Eab Ebc).
  - intros a b c Hab Hbc.
    destruct (cmp a b) eqn:Eab; try discriminate.
    + now rewrite (cmp_eq_congr _ Hc _ _ c Eab).
    + destruct (cmp b c) eqn:Ebc; try discriminate.
      * assert (Ecb : cmp c b = Eq)
          by (rewrite (cmp_antisym _ Hc), Ebc; reflexivity).
        rewrite (cmp_antisym _ Hc a c), (cmp_eq_congr _ Hc _ _ a Ecb),
          <- (cmp_antisym _ Hc a b), Eab.
        reflexivity.
      * assert (Hca : cmp c a = Lt).
        { apply (cmp_lt_trans _ Hc c b a);
            rewrite (cmp_antisym _ Hc); [rewrite Ebc | rewrite Eab];
            reflexivity. }
        rewrite (cmp_antisym _ Hc), Hca. reflexivity.
Qed.

Lemma string_ltb_strict_weak_order : strict_weak_order String.ltb.
Proof.
  exact (consistent_strict_weak_order _ VersionFacts.consistent_string).
Qed.

(** Sorting by string keys held in JSON values is sorting by the
    strings. *)
Lemma sort_pairs_string_keys {A : Type} (l : list (string * A)) :
  Py.sort_pairs Py.lt (map (fun sx => (JStr (fst sx), snd sx)) l)
  = Ok (map (fun sx => (JStr (fst sx), snd sx))
            (StableSort.sort String.ltb l)).
Proof.
  induction l as [|x l IH]; simpl; [reflexivity|].
  rewrite IH. simpl.
  generalize (StableSort.sort String.ltb l). clear. intros l.
  induction l as [|y l IH]; simpl; [reflexivity|].
  destruct (String.ltb (fst y) (fst x)); [|reflexivity].
  now rewrite IH.
Qed.

Section Grouping.

Context {pkg : Packaging}.
Variable py_str : json -> string.

(** Package entries come out of the sort by id in ascending order of
    their ids. *)
Lemma id_sort_sorted (ds : list json) :
  Forall Shape.is_package_entry ds ->
  exists ds',
    Py.sorted Py.lt (fun p => Py.getitem p "id") ds = Ok ds'
    /\ Permutation ds ds'
    /\ StronglySorted
         (fun d d' => exists a b,
              Py.getitem d "id" = Ok (JStr a)
              /\ Py.getitem d' "id" = Ok (JStr b)
              /\ String.ltb b a = false) ds'.
Proof.
  intros Hds.
  assert (Hids : exists ids,
             Forall2 (fun d s => Py.getitem d "id" = Ok (JStr s)) ds ids).
  { induction Hds as [|d ds (id & vs & Hid & _) _ [ids IH]].
    - exists []. constructor.
    - exists (id :: ids). now constructor. }
  destruct Hids as [ids Hids].
  set (dl := combine ids ds).
  assert (Hkeys : mapM (fun p => Py.getitem p "id") ds = Ok (map JStr ids)).
  { apply mapM_total. clear - Hids.
    induction Hids; simpl; constructor; auto. }
  assert (Hcomb : combine (map JStr ids) ds
                  = map (fun sx => (JStr (fst sx), snd sx)) dl).
  { unfold dl. clear - Hids. induction Hids; simpl; congruence. }
  assert (Hinv : Forall (fun sd => Py.getitem (snd sd) "id"
                                   = Ok (JStr (fst sd))) dl).
  { exact (Forall2_combine_keys _ _ _ Hids). }
  pose proof (SortFacts.sort_perm String.ltb dl) as Hperm.
  assert (Hinv' : Forall (fun sd => Py.getitem (snd sd) "id"
                                    = Ok (JStr (fst sd)))
                         (StableSort.sort String.ltb dl))
    by (eapply Permutation_Forall; eassumption).
  exists (map snd (StableSort.sort String.ltb dl)). repeat split.
  - unfold Py.sorted. rewrite Hkeys. simpl.
    rewrite Hcomb, sort_pairs_string_keys. simpl.
    now rewrite map_map.
  - rewrite <- (Forall2_combine_snd _ _ _ Hids) at 1. fold dl.
    now apply Permutation_map.
  - eapply StronglySorted_Forall2;
      [|exact (Forall2_map_snd _ _ Hinv')
       |exact (SortFacts.sort_sorted String.ltb
                 string_ltb_strict_weak_order dl)].
    intros x y d d' [Hx ->] [Hy ->] Hle.
    exists (fst x), (fst y). repeat split; auto.
Qed.

(** The packages made from the version entries of one package entry come
    out in ascending order of version. *)
Lemma versions_emitted_sorted (repo : string) (vs : list json)
      (acc : list Package) :
  strict_weak_order version_lt ->
  Forall Shape.is_version_entry vs -> Forall keyed vs ->
  exists vs' ps ps',
    Py.sorted (fun a b => Ok (version_lt a b))
              (fun v => let* s := Py.getitem v "version" in
                        version_sort_key s) vs = Ok vs'
    /\ emit_versions py_str repo None vs' acc = Ok (acc ++ ps')
    /\ mapM (make_package py_str repo) vs = Ok ps
    /\ Permutation ps ps'
    /\ StronglySorted version_le ps'.
Proof.
  intros Hswo Hshape Hkeyed.
  set (kf := fun v => let* s := Py.getitem v "version" in
                      version_sort_key s).
  assert (Hks : exists ks, Forall2 (fun v k => kf v = Ok k) vs ks).
  { clear - Hkeyed. induction Hkeyed as [|e vs (s & k & Hs & Hk) _ [ks IH]].
    - exists []. constructor.
    - exists (k :: ks). constructor; [|exact IH].
      unfold kf. rewrite Hs. simpl. now rewrite Hk. }
  destruct Hks as [ks Hks].
  set (dl := combine ks vs).
  pose proof (Forall2_combine_keys _ _ _ Hks) as Hinv. fold dl in Hinv.
  pose proof (SortFacts.sort_perm version_lt dl) as Hperm.
  assert (Hinv' : Forall (fun kx => kf (snd kx) = Ok (fst kx))
                         (StableSort.sort version_lt dl))
    by (eapply Permutation_Forall; eassumption).
  set (vs' := map snd (StableSort.sort version_lt dl)).
  assert (Hvs' : Permutation vs vs').
  { unfold vs'. rewrite <- (Forall2_combine_snd _ _ _ Hks) at 1. fold dl.
    now apply Permutation_map. }
  assert (Hshape' : Forall Shape.is_version_entry vs')
    by (eapply Permutation_Forall; eassumption).
  assert (Hps' : exists ps',
             Forall2 (fun e p => make_package py_str repo e = Ok p) vs' ps').
  { clear - Hshape'. induction Hshape' as [|e vs' He _ [ps' IH]].
    - exists []. constructor.
    - destruct (make_package_shaped py_str repo e He) as [p Hp].
      exists (p :: ps'). now constructor. }
  destruct Hps' as [ps' Hps'].
  pose proof (mapM_total _ _ _ Hps') as Hmap'.
  destruct (mapM_perm _ _ _ _ (Permutation_sym Hvs') Hmap')
    as (ps & Hmap & Hpp).
  exists vs', ps, ps'. repeat split.
  - unfold Py.sorted. fold kf. rewrite (mapM_total _ _ _ Hks). simpl.
    fold dl.
    rewrite (SortFacts.sort_pairs_total _ version_lt) by reflexivity.
    reflexivity.
  - rewrite (emit_versions_all py_str repo None vs' acc eq_refl).
    now rewrite Hmap'.
  - exact Hmap.
  - now symmetry.
  - assert (Hsorted :
              StronglySorted
                (fun e e' => exists a b, kf e = Ok a /\ kf e' = Ok b
                                         /\ version_lt b a = false) vs').
    { eapply StronglySorted_Forall2;
        [|exact (Forall2_map_snd _ _ Hinv')
         |exact (SortFacts.sort_sorted version_lt Hswo dl)].
      intros x y e e' [Hx ->] [Hy ->] Hle.
      exists (fst x), (fst y). repeat split; auto. }
    eapply StronglySorted_Forall2; [|exact Hps'|exact Hsorted].
    intros e e' p p' Hp Hp' (a & b & Ha & Hb & Hlt).
    unfold kf in Ha, Hb. bind_ok Ha. bind_ok Hb.
    apply version_sort_key_ok in Ha as (s & -> & Hs).
    apply version_sort_key_ok in Hb as (s' & -> & Hs').
    exists a, b.
    rewrite (make_package_version py_str repo e p s Hp Hstep).
    rewrite (make_package_version py_str repo e' p' s' Hp' Hstep0).
    auto.
Qed.

Lemma emit_packages_groups (repo : string) (ds : list json)
      (acc : list Package) :
  strict_weak_order version_lt ->
  Forall all_versions_parse ds ->
  exists groups : list (string * list Package),
    emit_packages py_str repo None ds acc
    = Ok (acc ++ concat (map snd groups))
    /\ Forall2 (fun d g =>
                  exists vs ps,
                    Shape.package_entry d (fst g) vs
                    /\ mapM (make_package py_str repo) vs = Ok ps
                    /\ Permutation ps (snd g)
                    /\ StronglySorted version_le (snd g))
               ds groups.
Proof.
  intros Hswo Hds. revert acc.
  induction Hds as [|d ds (id & vs & Hentry & Hkeyed) _ IH]; intros acc.
  - exists []. simpl. rewrite app_nil_r. split; [reflexivity | constructor].
  - destruct Hentry as (Hid & Hvs & Hshape).
    destruct (versions_emitted_sorted repo vs acc Hswo Hshape Hkeyed)
      as (vs' & ps & ps' & Hsort & Hemit & Hmap & Hperm & Hsorted).
    destruct (IH (acc ++ ps')) as (groups & Hrest & Hgroups).
    exists ((id, ps') :: groups). split.
    + cbn [emit_packages]. rewrite Hvs. simpl. rewrite Hsort. simpl.
      rewrite Hemit. simpl. rewrite Hrest. now rewrite <- app_assoc.
    + constructor; [|exact Hgroups].
      exists vs, ps. repeat split; auto.
Qed.

(** X18: on a well-shaped search result whose version strings all parse,
    [package_search] (here its reading of the result, without version
    spec) returns the packages group by group, one group per package
    entry, the groups in ascending order of package id and each group in
    ascending order of version; every group holds exactly the packages
    made from the version entries of its package entry. *)
Theorem results_grouped_by_id_then_version
        (j : json) (ds : list json) (repo : string) :
  strict_weak_order version_lt ->
  Shape.search_result j ds ->
  Forall all_versions_parse ds ->
  exists (groups : list (string * list Package)) (ds' : list json),
    collect py_str j repo None = Ok (concat (map snd groups))
    /\ Permutation ds ds'
    /\ Forall2 (fun d g =>
                  exists vs ps,
                    Shape.package_entry d (fst g) vs
                    /\ mapM (make_package py_str repo) vs = Ok ps
                    /\ Permutation ps (snd g))
               ds' groups
    /\ StronglySorted (fun g g' => String.ltb (fst g') (fst g) = false)
                      groups
    /\ Forall (fun g => StronglySorted version_le (snd g)) groups.
Proof.
  intros Hswo [Hdata Hds] Hall.
  destruct (id_sort_sorted ds Hds) as (ds' & Hsort & Hperm & Hsorted).
  assert (Hall' : Forall all_versions_parse ds')
    by (eapply Permutation_Forall; eassumption).
  destruct (emit_packages_groups repo ds' [] Hswo Hall')
    as (groups & Hemit & Hgroups).
  exists groups, ds'. repeat split.
  - unfold collect. rewrite Hdata. simpl. rewrite Hsort. simpl.
    exact Hemit.
  - exact Hperm.
  - eapply Forall2_impl; [|exact Hgroups].
    intros d g (vs & ps & He & Hm & Hp & _). eauto.
  - eapply StronglySorted_Forall2; [|exact Hgroups|exact Hsorted].
    intros d d' g g' (vs & ps & (Hid & _) & _) (vs' & ps' & (Hid' & _) & _)
           (a & b & Ha & Hb & Hlt).
    rewrite Hid in Ha. rewrite Hid' in Hb.
    injection Ha as <-. injection Hb as <-. exact Hlt.
  - eapply Forall2_Forall with (P := fun _ => True); [|exact Hgroups|].
    + intros d g (vs & ps & _ & _ & _ & Hs) _. exact Hs.
    + clear. induction ds'; constructor; auto.
Qed.

End Grouping.

(** ** Requests, and the order of the repositories *)

Section Requests.

Context {pkg : Packaging}.
Variable py_str : json -> string.
Variable net : network.

Lemma check_arguments_history (package_name ver : option string)
      (h h' : history) (r : result string) :
  check_arguments package_name ver h = (r, h') -> h' = h.
Proof.
  unfold check_arguments.
  destruct package_name as [[|c n]|]; try (now intros [= _ <-]).
  destruct ver as [[|d v]|]; now intros [= _ <-].
Qed.

Lemma package_search_grows (repo : string)
      (package_name ver : option string) (h h' : history)
      (r : result (list Package)) :
  package_search py_str net repo package_name ver h = (r, h') ->
  exists reqs, h' = reqs ++ h /\ List.length reqs <= 2.
Proof.
  unfold package_search, bind. intros H.
  destruct (check_arguments package_name ver h) as [[n|e] h1] eqn:Hcheck;
    apply check_arguments_history in Hcheck; subst h1.
  - destruct (search_body_shape py_str net repo n h)
      as [(r' & h2 & _ & Hh & Hbody) | (j & u & Hbody)];
      rewrite Hbody in H; injection H as _ <-.
    + destruct Hh as [-> | [u ->]].
      * exists [repo]. simpl. auto.
      * exists [u; repo]. simpl. auto.
    + exists [u; repo]. simpl. auto.
  - injection H as _ <-. exists []. simpl. auto.
Qed.

Lemma search_loop_grows (repos : list string)
      (package_name ver : option string) (acc : list Package)
      (h h' : history) (r : result (list Package)) :
  search_loop py_str net repos package_name ver acc h = (r, h') ->
  exists reqs, h' = reqs ++ h /\ List.length reqs <= 2 * List.length repos.
Proof.
  revert acc h. induction repos as [|repo repos IH]; intros acc h H.
  - injection H as _ <-. exists []. simpl. auto.
  - cbn [search_loop] in H. unfold bind in H.
    destruct (package_search py_str net repo package_name ver h)
      as [[found|e] h1] eqn:Hsearch;
      apply package_search_grows in Hsearch as (reqs1 & -> & Hlen1).
    + apply IH in H as (reqs2 & -> & Hlen2).
      exists (reqs2 ++ reqs1). rewrite app_assoc. split; [reflexivity|].
      rewrite length_app. simpl. lia.
    + injection H as _ <-. exists reqs1. split; [reflexivity|]. simpl. lia.
Qed.

(** Up to the URL of line 130, [download_command] makes the requests of
    the searches and at most one more. *)
Lemma download_command_grows
      (repository_urls : list string) (package_name : string)
      (package_version : option string) (h h' : history)
      (r : result string) :
  download_command py_str net repository_urls package_name
                   package_version h = (r, h') ->
  exists reqs,
    h' = reqs ++ h
    /\ List.length reqs <= 2 * List.length repository_urls + 1.
Proof.
  unfold download_command, bind, lift. intros H.
  destruct (search_loop py_str net repository_urls (Some package_name)
                        (or_none package_version) [] h)
    as [[results|e] h1] eqn:Hloop;
    apply search_loop_grows in Hloop as (reqs & -> & Hlen).
  - destruct (select_for_download results) as [package|e].
    + unfold content_url, bind, get_json, lift in H.
      exists (repository package :: reqs). split; [|simpl; lia].
      destruct (net (reqs ++ h) (repository package)) as [idx| | |];
        try (now injection H as _ <-).
      destruct (resolve_endpoint idx "PackageBaseAddress/3.0")
        as [[url|]|e]; try (now injection H as _ <-).
      destruct (Py.truthy url); now injection H as _ <-.
    + injection H as _ <-. exists reqs. split; [reflexivity | lia].
  - injection H as _ <-. exists reqs. split; [reflexivity | lia].
Qed.

(** X19: whatever their outcome, the commands only add requests to the
    history: [search_command] at most two per repository, and the whole
    of [download_command], with the retrieval of line 137, at most two
    more than that; a download that saves a file has made the retrieval
    last, and the file is named after the URL retrieved. *)
Theorem commands_request_bounds
        (urlretrieve : retriever)
        (repository_urls : list string) (package_name : string)
        (package_version : option string) (h : history) :
  (forall r h',
      search_command py_str net repository_urls package_name
                     package_version h = (r, h') ->
      exists reqs,
        h' = reqs ++ h
        /\ List.length reqs <= 2 * List.length repository_urls)
  /\ (forall o h',
         download_command_to_file py_str net urlretrieve repository_urls
                                  package_name package_version h = (o, h') ->
         exists reqs,
           h' = reqs ++ h
           /\ List.length reqs <= 2 * List.length repository_urls + 2)
  /\ (forall filename h',
         download_command_to_file py_str net urlretrieve repository_urls
                                  package_name package_version h
         = (Saved filename, h') ->
         exists download_url reqs,
           h' = download_url :: reqs ++ h
           /\ filename = PosixPath.basename download_url
           /\ download_command py_str net repository_urls package_name
                               package_version h
              = (Ok download_url, reqs ++ h)
           /\ urlretrieve (reqs ++ h) download_url filename = Retrieved).
Proof.
  split; [|split].
  - intros r h'. unfold search_command, bind, lift. intros H.
    destruct (search_loop py_str net repository_urls (Some package_name)
                          (or_none package_version) [] h)
      as [[results|e] h1] eqn:Hloop;
      apply search_loop_grows in Hloop; injection H as _ <-; exact Hloop.
  - intros o h'. unfold download_command_to_file. intros H.
    destruct (download_command py_str net repository_urls package_name
                               package_version h)
      as [[url|e] h1] eqn:Hurl;
      apply download_command_grows in Hurl as (reqs & -> & Hlen);
      injection H as _ <-.
    + exists (url :: reqs). split; [reflexivity | simpl; lia].
    + exists reqs. split; [reflexivity | lia].
  - intros filename h'. unfold download_command_to_file. intros H.
    destruct (download_command py_str net repository_urls package_name
                               package_version h)
      as [[url|e] h1] eqn:Hurl; [|discriminate].
    pose proof (download_command_grows _ _ _ _ _ _ Hurl) as (reqs & -> & _).
    destruct (urlretrieve (reqs ++ h) url (PosixPath.basename url))
      eqn:Hget; [|discriminate].
    injection H as <- <-.
    exists url, reqs. now rewrite Hget.
Qed.

(** *** A network that answers each URL always the same way *)

Hypothesis Hstateless : forall h url, net h url = net [] url.

Lemma package_search_stateless (repo : string)
      (package_name ver : option string) (h g : history) :
  fst (package_search py_str net repo package_name ver h)
  = fst (package_search py_str net repo package_name ver g).
Proof.
  unfold package_search, bind, check_arguments, py_assert, ret, raise.
  destruct package_name as [[|c n]|]; try reflexivity.
  destruct ver as [[|d v]|]; try reflexivity; simpl;
    unfold search_body, bind, get_json, lift, ret, raise;
    rewrite (Hstateless h repo), (Hstateless g repo);
    (destruct (net [] repo) as [idx| | |]; try reflexivity);
    (destruct (Py.truthy idx); try reflexivity); simpl;
    (destruct (resolve_endpoint idx "SearchQueryService/3.0")
      as [[url|]|e]; try reflexivity);
    (destruct (Py.truthy url); try reflexivity); simpl;
    rewrite (Hstateless (repo :: h)), (Hstateless (repo :: g));
    (destruct (net [] _) as [j| | |]; try reflexivity);
    destruct (Py.truthy j); reflexivity.
Qed.

Lemma search_loop_ok_inv (repos : list string)
      (package_name ver : option string) (acc out : list Package)
      (h h' : history) :
  search_loop py_str net repos package_name ver acc h = (Ok out, h') ->
  exists cs,
    Forall2 (fun repo c =>
               fst (package_search py_str net repo package_name ver [])
               = Ok c) repos cs
    /\ out = acc ++ concat cs.
Proof.
  revert acc h. induction repos as [|repo repos IH]; intros acc h H.
  - injection H as <- _. exists []. split; [constructor|].
    simpl. now rewrite app_nil_r.
  - cbn [search_loop] in H.
    apply bind_ok_inv in H as (found & h1 & Hfound & H).
    apply IH in H as (cs & Hcs & ->).
    exists (found :: cs). split.
    + constructor; [|exact Hcs].
      rewrite (package_search_stateless repo package_name ver [] h).
      now rewrite Hfound.
    + simpl. now rewrite app_assoc.
Qed.

Lemma search_loop_ok (repos : list string)
      (package_name ver : option string) (cs : list (list Package)) :
  Forall2 (fun repo c =>
             fst (package_search py_str net repo package_name ver [])
             = Ok c) repos cs ->
  forall acc h,
  exists h',
    search_loop py_str net repos package_name ver acc h
    = (Ok (acc ++ concat cs), h').
Proof.
  induction 1 as [|repo c repos cs Hc _ IH]; intros acc h.
  - exists h. simpl. unfold ret. now rewrite app_nil_r.
  - cbn [search_loop]. unfold bind.
    rewrite (package_search_stateless repo package_name ver [] h) in Hc.
    destruct (package_search py_str net repo package_name ver h)
      as [r h1]. simpl in Hc. subst r.
    destruct (IH (acc ++ c) h1) as [h' ->].
    exists h'. simpl. now rewrite app_assoc.
Qed.

Lemma sorted_by_version_total (l : list Package) :
  Forall parseable l -> exists out, sorted_by_version l = Ok out.
Proof.
  intros Hl.
  assert (Hkeys : exists ks,
             Forall2 (fun p k => version_sort_key (JStr (version p)) = Ok k)
                     l ks).
  { induction Hl as [|p l [k Hk] _ [ks IH]]; [exists []; constructor|].
    exists (k :: ks). constructor; [|exact IH]. simpl. now rewrite Hk. }
  destruct Hkeys as [ks Hks].
  unfold sorted_by_version, Py.sorted.
  rewrite (mapM_total _ _ _ Hks). simpl.
  rewrite (SortFacts.sort_pairs_total _ version_lt) by reflexivity.
  simpl. eauto.
Qed.

(** X20: on a network whose answers do not depend on what was asked
    before, the order of the repository list decides nothing but the
    order of the output: when [search_command] returns for one order of
    the repositories, it returns for any other order, with the same
    packages. *)
Theorem search_command_repository_order
        (repository_urls repository_urls' : list string)
        (package_name : string) (package_version : option string)
        (h h1 g : history) (out : list Package) :
  Permutation repository_urls repository_urls' ->
  search_command py_str net repository_urls package_name package_version h
  = (Ok out, h1) ->
  exists out' g1,
    search_command py_str net repository_urls' package_name
                   package_version g = (Ok out', g1)
    /\ Permutation out out'.
Proof.
  intros Hperm H. unfold search_command in H.
  apply bind_ok_inv in H as (results & h2 & Hloop & Hsort).
  unfold lift in Hsort. injection Hsort as Hsort _.
  apply search_loop_ok_inv in Hloop as (cs & Hcs & ->). simpl in Hsort.
  destruct (Permutation_Forall2 Hperm Hcs) as (cs' & Hcs' & Hall').
  destruct (search_loop_ok _ _ _ _ Hall' [] g) as [g1 Hloop'].
  simpl in Hloop'.
  pose proof (SortFacts.sorted_perm _ _ _ _ Hsort) as [Hout Hkeys].
  pose proof (concat_perm _ _ Hcs') as Hconcat.
  assert (Hparse : Forall parseable (concat cs')).
  { eapply Permutation_Forall; [exact Hconcat|].
    eapply Forall_impl; [|exact Hkeys].
    intros p [k Hk]. apply version_sort_key_ok in Hk as (s & [= <-] & Hs).
    now exists k. }
  destruct (sorted_by_version_total _ Hparse) as [out' Hsort'].
  exists out', g1. split.
  - unfold search_command.
    rewrite (bind_ok_eq _ _ _ _ _ Hloop'). unfold lift. now rewrite Hsort'.
  - rewrite <- Hout, Hconcat.
    exact (proj1 (SortFacts.sorted_perm _ _ _ _ Hsort')).
Qed.

End Requests.

(** ** The theorems at work on the example repositories *)

Import Example.

#[local] Existing Instance VersionResolver.resolver.

(** Repositories a and b: the output is 0.9.0 of b, then 1.0.0 of a
    before 1.0.0 of b, and the download takes 0.9.0 of b. *)
Lemma aggregate_concat_stable_sort_witness :
  strict_weak_order version_lt
  /\ searches py_str net (Some "Foo") (or_none (Some ""))
              [] [repo_a; repo_b] [[pkg_a]; [pkg_b0; pkg_b1]] h_ab
  /\ search_command py_str net [repo_a; repo_b] "Foo" (Some "") []
     = (Ok [pkg_b0; pkg_a; pkg_b1], h_ab)
  /\ download_command py_str net [repo_a; repo_b] "Foo" (Some "") []
     = (Ok "https://b.example.test/flat/foo-b/0.9.0/foo-b.0.9.0.nupkg",
        repo_b :: h_ab)
  /\ exists out,
      search_command py_str net [repo_a; repo_b] "Foo" (Some "") []
      = (Ok out, h_ab)
      /\ List.length [[pkg_a]; [pkg_b0; pkg_b1]]
         = List.length [repo_a; repo_b]
      /\ sorted_by_version (concat [[pkg_a]; [pkg_b0; pkg_b1]]) = Ok out
      /\ Permutation (concat [[pkg_a]; [pkg_b0; pkg_b1]]) out
      /\ StronglySorted version_le out
      /\ (forall k,
             filter (version_tied k) out
             = filter (version_tied k)
                      (concat [[pkg_a]; [pkg_b0; pkg_b1]]))
      /\ select_for_download (concat [[pkg_a]; [pkg_b0; pkg_b1]])
         = match out with
           | [] => Raise IndexError
           | package :: _ => Ok package
           end
      /\ download_command py_str net [repo_a; repo_b] "Foo" (Some "") []
         = match out with
           | [] => (Raise IndexError, h_ab)
           | package :: _ => content_url py_str net package h_ab
           end.
Proof.
  assert (Hsearch :
            searches py_str net (Some "Foo") (or_none (Some ""))
                     [] [repo_a; repo_b] [[pkg_a]; [pkg_b0; pkg_b1]] h_ab).
  { apply searches_cons with (h' := h_a); [reflexivity|].
    apply searches_cons with (h' := h_ab); [reflexivity|].
    apply searches_nil. }
  split; [exact VersionFacts.ltb_strict_weak_order|].
  split; [exact Hsearch|].
  split; [reflexivity|].
  split; [reflexivity|].
  exact (aggregate_concat_stable_sort py_str net
           [repo_a; repo_b] "Foo" (Some "") [] h_ab
           [[pkg_a]; [pkg_b0; pkg_b1]]
           VersionFacts.ltb_strict_weak_order Hsearch).
Defined.

(** The search result of repository c is well shaped. *)
Lemma result_c_shape :
  Shape.search_result result_c
    [JObj [("id", JStr "Foo");
           ("versions", JArr [version_entry "foo-c" "1.0.0"; bad_entry])]].
Proof.
  split; [reflexivity|].
  constructor; [|constructor].
  exists "Foo", [version_entry "foo-c" "1.0.0"; bad_entry].
  repeat split.
  constructor; [|constructor; [|constructor]].
  - exists (JStr "foo-c"), "1.0.0". split; reflexivity.
  - exists (JStr "foo-c"), "not-a-version". split; reflexivity.
Qed.

(** Its second version string does not parse. *)
Lemma result_c_unparseable :
  Exists has_unparseable_version
    [JObj [("id", JStr "Foo");
           ("versions", JArr [version_entry "foo-c" "1.0.0"; bad_entry])]].
Proof.
  apply Exists_cons_hd.
  exists "Foo", [version_entry "foo-c" "1.0.0"; bad_entry]. split.
  - repeat split.
    constructor; [|constructor; [|constructor]].
    + exists (JStr "foo-c"), "1.0.0". split; reflexivity.
    + exists (JStr "foo-c"), "not-a-version". split; reflexivity.
  - apply Exists_cons_tl, Exists_cons_hd.
    exists (JStr "foo-c"), "not-a-version". repeat split.
Qed.

(** Repository c, searched after a, lists the version string
    not-a-version: the search of a, c, b ends with [InvalidVersion] and b
    is never asked. *)
Lemma unparseable_version_aborts_witness :
  let h2 := query "https://c.example.test" :: repo_c :: h_a in
  package_search py_str net repo_c (Some "Foo") (or_none (Some "")) h_a
  = (Raise InvalidVersion, h2)
  /\ search_command py_str net ([repo_a] ++ repo_c :: [repo_b])
                    "Foo" (Some "") []
     = (Raise InvalidVersion, h2)
  /\ download_command py_str net ([repo_a] ++ repo_c :: [repo_b])
                      "Foo" (Some "") []
     = (Raise InvalidVersion, h2).
Proof.
  refine (unparseable_version_aborts py_str net
            [repo_a] [repo_b] repo_c "Foo" (Some "") [] h_a [[pkg_a]]
            (index_of "https://c.example.test")
            (JStr "https://c.example.test/query") result_c _
            _ _ _ result_c_shape result_c_unparseable).
  - discriminate.
  - apply searches_cons with (h' := h_a); [reflexivity | apply searches_nil].
  - repeat split.
Defined.


(** In the index of repository a the search service is the only, hence
    the last, resource of that type. *)
Lemma resolve_endpoint_last_match_witness :
  resolve_endpoint (index_of "https://a.example.test")
                   "SearchQueryService/3.0"
  = Ok (Some (JStr "https://a.example.test/query")).
Proof.
  apply (resolve_endpoint_last_match
           (index_of "https://a.example.test") []
           [resource "https://a.example.test/flat" "PackageBaseAddress/3.0.0"]
           (resource "https://a.example.test/query"
                     "SearchQueryService/3.0.0-rc")
           "SearchQueryService/3.0" "SearchQueryService/3.0.0-rc"
           (JStr "https://a.example.test/query")).
  - reflexivity.
  - constructor.
  - split; reflexivity.
  - reflexivity.
  - constructor; [|constructor].
    exists "PackageBaseAddress/3.0.0", (JStr "https://a.example.test/flat").
    repeat split.
Defined.

(** Repository d has no search service: searching it raises. *)
Lemma missing_search_service_raises_witness :
  package_search py_str net repo_d (Some "Foo") (or_none (Some "")) []
  = (Raise UnboundLocalError, [repo_d])
  /\ search_command py_str net (repo_d :: [repo_a]) "Foo" (Some "") []
     = (Raise UnboundLocalError, [repo_d]).
Proof.
  apply (missing_search_service_raises py_str net repo_d "Foo"
           (Some "") [repo_a] []
           (index_without_search "https://d.example.test")
           [resource "https://d.example.test/flat"
                     "PackageBaseAddress/3.0.0"]).
  - discriminate.
  - reflexivity.
  - reflexivity.
  - constructor; [|constructor].
    exists "PackageBaseAddress/3.0.0", (JStr "https://d.example.test/flat").
    repeat split.
Defined.

(** A repository that cannot be reached contributes nothing, and the
    download then fails on the empty list. *)
Lemma download_nothing_found_raises_witness :
  select_for_download (concat [[]]) = Raise IndexError
  /\ download_command py_str net [unreachable] "Foo" (Some "") []
     = (Raise IndexError, [unreachable]).
Proof.
  apply (download_nothing_found_raises py_str net [unreachable] "Foo"
           (Some "") [] [unreachable] [[]]).
  - apply searches_cons with (h' := [unreachable]);
      [reflexivity | apply searches_nil].
  - reflexivity.
Defined.

(** An empty version spec fails the third assertion; the name Foo with
    the spec 1.* passes all three. *)
Lemma package_search_assertions_witness :
  package_search py_str net repo_a (Some "Foo") (Some "") []
  = (Raise AssertionError, [])
  /\ check_arguments (Some "Foo") (Some "1.*") [] = (Ok "Foo", [])
  /\ package_search py_str net repo_a (Some "Foo") (Some "1.*") []
     = search_body py_str net repo_a "Foo" (Some "1.*") [].
Proof.
  split.
  - apply (proj1 (package_search_assertions py_str net repo_a
                    (Some "Foo") (Some "") [])).
    right. right. reflexivity.
  - apply (proj2 (package_search_assertions py_str net repo_a
                    (Some "Foo") (Some "1.*") []) "Foo").
    + reflexivity.
    + discriminate.
    + right. exists "1.*". split; [reflexivity | discriminate].
Defined.

(** ** The further properties on the example repositories *)

(** The pattern 1.2.* matches 1.2.3, hence so does 1.*; the pattern 1.*.3
    matches only itself. *)
Lemma wildcard_patterns_witness :
  version_matches "1.2.3" "*" = true
  /\ version_matches "1.2.3" ("1." ++ "*")%string = true
  /\ (version_matches "1.2.3" "1.*.3" = true <-> "1.2.3" = "1.*.3").
Proof.
  destruct (wildcard_patterns "1.2.3") as (Hstar & Hmono & Hliteral).
  split; [exact Hstar|]. split.
  - apply (Hmono "1." "2."). reflexivity.
  - apply Hliteral. reflexivity.
Defined.

(** Both packages found in repository b carry its URL. *)
Lemma package_search_tags_repository_witness :
  Forall (fun p => repository p = repo_b) [pkg_b0; pkg_b1].
Proof.
  apply (package_search_tags_repository py_str net repo_b (Some "Foo") None
           h_a h_ab).
  reflexivity.
Defined.

(** With the spec 1.* repository b returns 1.0.0 only. *)
Lemma package_search_results_match_spec_witness :
  Forall (fun p => version_matches (version p) "1.*" = true) [pkg_b1].
Proof.
  apply (package_search_results_match_spec py_str net repo_b (Some "Foo")
           "1.*" h_a h_ab).
  reflexivity.
Defined.

Lemma spec_filters_no_spec_result_witness :
  package_search py_str net repo_b (Some "Foo") (Some "1.*") h_a
  = (Ok (filter (fun p => version_matches (version p) "1.*")
                [pkg_b0; pkg_b1]), h_ab).
Proof.
  apply (spec_filters_no_spec_result py_str net repo_b "Foo" "1.*" h_a h_ab).
  - discriminate.
  - reflexivity.
Defined.

(** Searching repository b after a adds two requests, searching the
    unreachable repository adds one. *)
Lemma package_search_requests_witness :
  (h_ab = h_a \/ h_ab = repo_b :: h_a \/ exists u, h_ab = u :: repo_b :: h_a)
  /\ ([unreachable] = []
      \/ [unreachable] = unreachable :: []
      \/ exists u, [unreachable] = u :: unreachable :: []).
Proof.
  split.
  - apply (package_search_requests py_str net repo_b (Some "Foo") None h_a
             h_ab (Ok [pkg_b0; pkg_b1])).
    reflexivity.
  - apply (package_search_requests py_str net unreachable (Some "Foo") None
             [] [unreachable] (Ok [])).
    reflexivity.
Defined.

Lemma empty_search_endpoint_contributes_nothing_witness :
  package_search py_str Example2.net Example2.repo_e (Some "Foo") None []
  = (Ok [], [Example2.repo_e]).
Proof.
  apply (empty_search_endpoint_contributes_nothing py_str Example2.net
           Example2.repo_e "Foo" None [] Example2.index_e (JStr ""));
    try discriminate; reflexivity.
Defined.

Lemma search_answer_without_data_raises_witness :
  package_search py_str Example2.net Example2.repo_f (Some "Foo") None []
  = (Raise KeyError, [query "https://f.example.test"; Example2.repo_f]).
Proof.
  apply (proj1 (search_answer_without_data_raises py_str Example2.net
                  Example2.repo_f "Foo" None []
                  (index_of "https://f.example.test")
                  (JStr "https://f.example.test/query") Example2.answer_f
                  ltac:(discriminate) ltac:(discriminate)
                  ltac:(repeat split))
               [("totalHits", JNum 0)]);
    reflexivity.
Defined.

(** Repository g answers 503; the search goes on with repository a. *)
Lemma fetch_failure_is_skipped_witness :
  search_command py_str Example2.net [Example2.repo_g; repo_a] "Foo" None []
  = search_command py_str Example2.net [repo_a] "Foo" None [Example2.repo_g]
  /\ download_command py_str Example2.net [Example2.repo_g; repo_a] "Foo"
                      None []
     = download_command py_str Example2.net [repo_a] "Foo" None
                        [Example2.repo_g].
Proof.
  apply (fetch_failure_is_skipped py_str Example2.net Example2.repo_g "Foo"
           None [repo_a] []).
  - discriminate.
  - right. exists 503%Z. reflexivity.
Defined.

Lemma download_filename_spec_witness :
  isascii (name pkg_b0) = true
  /\ isascii (version pkg_b0) = true
  /\ download_filename py_str (JStr "https://b.example.test/flat") pkg_b0
     = "foo-b.0.9.0.nupkg".
Proof.
  split; [reflexivity|]. split; [reflexivity|].
  apply (proj2 (proj2 (download_filename_spec py_str
                         (JStr "https://b.example.test/flat") pkg_b0
                         ltac:(reflexivity) ltac:(reflexivity))));
    reflexivity.
Defined.

(** The searches of the second world that find Foo 1.0.0. *)
Lemma searches_k :
  searches py_str Example2.net (Some "Foo") (or_none None) []
           [Example2.repo_k] [[Example2.pkg_k]] Example2.h_k.
Proof.
  apply searches_cons with (h' := Example2.h_k);
    [reflexivity | apply searches_nil].
Qed.

Lemma searches_m :
  searches py_str Example2.net (Some "Foo") (or_none None) []
           [Example2.repo_m] [[Example2.pkg_m]] Example2.h_m.
Proof.
  apply searches_cons with (h' := Example2.h_m);
    [reflexivity | apply searches_nil].
Qed.

Lemma searches_n :
  searches py_str Example2.net (Some "Foo") (or_none None) []
           [Example2.repo_n] [[Example2.pkg_n]] Example2.h_n.
Proof.
  apply searches_cons with (h' := Example2.h_n);
    [reflexivity | apply searches_nil].
Qed.

Lemma searches_ab :
  searches py_str net (Some "Foo") (or_none None) []
           [repo_a; repo_b] [[pkg_a]; [pkg_b0; pkg_b1]] h_ab.
Proof.
  apply searches_cons with (h' := h_a); [reflexivity|].
  apply searches_cons with (h' := h_ab); [reflexivity|].
  apply searches_nil.
Qed.

(** Repository k is gone when its index is asked for again. *)
Lemma download_index_fetch_failure_raises_witness :
  download_command py_str Example2.net [Example2.repo_k] "Foo" None []
  = (Raise TypeError, Example2.repo_k :: Example2.h_k).
Proof.
  apply (download_index_fetch_failure_raises py_str Example2.net
           [Example2.repo_k] "Foo" None [] Example2.h_k [[Example2.pkg_k]]
           Example2.pkg_k searches_k).
  - reflexivity.
  - left. reflexivity.
Defined.

Lemma download_missing_content_service_raises_witness :
  download_command py_str Example2.net [Example2.repo_m] "Foo" None []
  = (Raise UnboundLocalError, Example2.repo_m :: Example2.h_m).
Proof.
  apply (download_missing_content_service_raises py_str Example2.net
           [Example2.repo_m] "Foo" None [] Example2.h_m [[Example2.pkg_m]]
           Example2.pkg_m Example2.index_m
           [resource "https://m.example.test/query"
                     "SearchQueryService/3.0.0-rc"]
           searches_m).
  - reflexivity.
  - reflexivity.
  - reflexivity.
  - constructor; [|constructor].
    exists "SearchQueryService/3.0.0-rc",
      (JStr "https://m.example.test/query").
    repeat split.
Defined.

Lemma download_empty_content_endpoint_raises_witness :
  download_command py_str Example2.net [Example2.repo_n] "Foo" None []
  = (Raise NameError, Example2.repo_n :: Example2.h_n).
Proof.
  apply (download_empty_content_endpoint_raises py_str Example2.net
           [Example2.repo_n] "Foo" None [] Example2.h_n [[Example2.pkg_n]]
           Example2.pkg_n Example2.index_n (JStr "") searches_n);
    reflexivity.
Defined.

(** Of Foo 1.0.0 in a and Foo 0.9.0 and 1.0.0 in b, the download takes
    0.9.0 from the content service of b. *)
Lemma download_selects_lowest_and_builds_url_witness :
  download_command py_str net [repo_a; repo_b] "Foo" None []
  = (Ok "https://b.example.test/flat/foo-b/0.9.0/foo-b.0.9.0.nupkg",
     repo_b :: h_ab).
Proof.
  destruct (download_selects_lowest_and_builds_url
              (pkg := VersionResolver.resolver) py_str net [repo_a; repo_b]
              "Foo" None [] h_ab [[pkg_a]; [pkg_b0; pkg_b1]]
              VersionFacts.ltb_strict_weak_order searches_ab
              ltac:(discriminate))
    as (package & Hselect & _ & _ & _ & Hurl).
  vm_compute in Hselect. injection Hselect as <-.
  apply (Hurl (index_of "https://b.example.test")
              "https://b.example.test/flat");
    [reflexivity | reflexivity | reflexivity | reflexivity | discriminate].
Defined.

(** The alias nuget.org, an unlisted URL and no argument at all. *)
Lemma get_repository_url_resolves_witness :
  get_repository_url (Some "nuget.org")
  = Ok "https://api.nuget.org/v3/index.json"
  /\ get_repository_url (Some "https://a.example.test/index.json")
     = Ok "https://a.example.test/index.json"
  /\ get_repository_url None = Ok "https://api.nuget.org/v3/index.json".
Proof.
  split; [|split].
  - apply (proj1 (proj2 (proj2 (get_repository_url_resolves
                                  (Some "nuget.org"))))
             "nuget.org").
    + reflexivity.
    + unfold REPOSITORIES. do 17 right. left. reflexivity.
  - apply (proj2 (proj2 (proj2 (get_repository_url_resolves
                                  (Some "https://a.example.test/index.json"))))
             "https://a.example.test/index.json").
    + reflexivity.
    + discriminate.
    + intros url Hin. unfold REPOSITORIES in Hin. simpl in Hin.
      repeat (destruct Hin as [Hin | Hin]; [discriminate|]).
      contradiction.
  - apply (proj1 (proj2 (get_repository_url_resolves None))). reflexivity.
Defined.

(** A named alias wins over a list file that cannot be opened; without the
    alias that file makes the selection fail, with the error of [open]. *)
Lemma repositories_from_args_selectors_witness :
  (exists url,
      repositories_from_args Example2.fs
        (mkArgs (Some "nuget.org") (Some "missing.txt")) = Selected [url]
      /\ get_repository_url (Some "nuget.org") = Ok url
      /\ url <> EmptyString)
  /\ repositories_from_args Example2.fs (mkArgs None (Some "missing.txt"))
     = SelectionReadFails OSError
  /\ (or_none None = None
      /\ exists path, or_none (Some "missing.txt") = Some path
                      /\ Example2.fs path = FileRaises OSError)
  /\ repositories_from_args Example2.fs (mkArgs None None)
     = Selected (map snd REPOSITORIES).
Proof.
  split; [|split; [|split]].
  - apply (proj1 (proj2 (proj2 (proj2
             (repositories_from_args_selectors Example2.fs
                (mkArgs (Some "nuget.org") (Some "missing.txt"))))))
             "nuget.org").
    + reflexivity.
    + discriminate.
  - apply (proj1 (proj2 (proj2
             (repositories_from_args_selectors Example2.fs
                (mkArgs None (Some "missing.txt")))))
             "missing.txt" OSError);
      reflexivity.
  - apply (proj1 (proj2
             (repositories_from_args_selectors Example2.fs
                (mkArgs None (Some "missing.txt"))))
             OSError).
    reflexivity.
  - apply (proj2 (proj2 (proj2 (proj2
             (repositories_from_args_selectors Example2.fs
                (mkArgs None None))))));
      reflexivity.
Defined.

(** The list file repos.txt: three lines, three entries, the second one
    empty. *)
Lemma list_file_entries_are_stripped_witness :
  Forall (fun line => isascii line = true)
         [("https://a.example.test/index.json" ++ Example2.newline)%string;
          Example2.newline;
          "  https://b.example.test/index.json"]
  /\ exists urls,
    repositories_from_args Example2.fs (mkArgs None (Some "repos.txt"))
    = Selected urls
    /\ Forall2 (fun line url =>
                  PyLines.trimmed url
                  /\ (exists a b,
                         line = (a ++ url ++ b)%string
                         /\ PyLines.all_space a = true
                         /\ PyLines.all_space b = true)
                  /\ (PyLines.all_space line = true -> url = EmptyString))
               [("https://a.example.test/index.json" ++ Example2.newline)
                  %string;
                Example2.newline;
                "  https://b.example.test/index.json"]
               urls.
Proof.
  assert (Hascii :
            Forall (fun line => isascii line = true)
                   [("https://a.example.test/index.json" ++ Example2.newline)
                      %string;
                    Example2.newline;
                    "  https://b.example.test/index.json"]).
  { repeat constructor. }
  split; [exact Hascii|].
  apply (list_file_entries_are_stripped Example2.fs
           (mkArgs None (Some "repos.txt")) "repos.txt");
    [reflexivity | reflexivity | reflexivity | exact Hascii].
Defined.

Lemma result_two_shape :
  Shape.search_result Example2.result_two
                      [Example2.entry_core; Example2.entry_foo].
Proof.
  split; [reflexivity|].
  constructor; [|constructor; [|constructor]].
  - exists "Foo.Core", [version_entry "core" "2.0.0";
                        version_entry "core" "1.0.0"].
    repeat split. constructor; [|constructor; [|constructor]].
    + exists (JStr "core"), "2.0.0". split; reflexivity.
    + exists (JStr "core"), "1.0.0". split; reflexivity.
  - exists "Foo", [version_entry "foo" "1.0.0";
                   version_entry "foo" "1.0.0-beta"].
    repeat split. constructor; [|constructor; [|constructor]].
    + exists (JStr "foo"), "1.0.0". split; reflexivity.
    + exists (JStr "foo"), "1.0.0-beta". split; reflexivity.
Qed.

Lemma result_two_parses :
  Forall all_versions_parse [Example2.entry_core; Example2.entry_foo].
Proof.
  constructor; [|constructor; [|constructor]].
  - exists "Foo.Core", [version_entry "core" "2.0.0";
                        version_entry "core" "1.0.0"].
    split.
    + repeat split. constructor; [|constructor; [|constructor]].
      * exists (JStr "core"), "2.0.0". split; reflexivity.
      * exists (JStr "core"), "1.0.0". split; reflexivity.
    + constructor; [|constructor; [|constructor]].
      * eexists "2.0.0", _. split; reflexivity.
      * eexists "1.0.0", _. split; reflexivity.
  - exists "Foo", [version_entry "foo" "1.0.0";
                   version_entry "foo" "1.0.0-beta"].
    split.
    + repeat split. constructor; [|constructor; [|constructor]].
      * exists (JStr "foo"), "1.0.0". split; reflexivity.
      * exists (JStr "foo"), "1.0.0-beta". split; reflexivity.
    + constructor; [|constructor; [|constructor]].
      * eexists "1.0.0", _. split; reflexivity.
      * eexists "1.0.0-beta", _. split; reflexivity.
Qed.

(** The entries Foo.Core (2.0.0, 1.0.0) and Foo (1.0.0, 1.0.0-beta) come
    out as Foo 1.0.0-beta, Foo 1.0.0, Foo.Core 1.0.0, Foo.Core 2.0.0. *)
Lemma results_grouped_by_id_then_version_witness :
  collect py_str Example2.result_two repo_a None
  = Ok [mkPackage "foo" "1.0.0-beta" repo_a; mkPackage "foo" "1.0.0" repo_a;
        mkPackage "core" "1.0.0" repo_a; mkPackage "core" "2.0.0" repo_a]
  /\ exists (groups : list (string * list Package)) (ds' : list json),
      collect py_str Example2.result_two repo_a None
      = Ok (concat (map snd groups))
      /\ Permutation [Example2.entry_core; Example2.entry_foo] ds'
      /\ Forall2 (fun d g =>
                    exists vs ps,
                      Shape.package_entry d (fst g) vs
                      /\ mapM (make_package py_str repo_a) vs = Ok ps
                      /\ Permutation ps (snd g))
                 ds' groups
      /\ StronglySorted (fun g g' => String.ltb (fst g') (fst g) = false)
                        groups
      /\ Forall (fun g => StronglySorted version_le (snd g)) groups.
Proof.
  split; [reflexivity|].
  exact (results_grouped_by_id_then_version
           (pkg := VersionResolver.resolver) py_str Example2.result_two
           [Example2.entry_core; Example2.entry_foo] repo_a
           VersionFacts.ltb_strict_weak_order result_two_shape
           result_two_parses).
Defined.

(** Searching a and b makes four requests; the download from a and b
    makes six, the last one for the package file. *)
Lemma commands_request_bounds_witness :
  (exists reqs,
      h_ab = reqs ++ []
      /\ List.length reqs <= 2 * List.length [repo_a; repo_b])
  /\ download_command_to_file py_str net Example2.urlretrieve
                              [repo_a; repo_b] "Foo" None []
     = (Saved "foo-b.0.9.0.nupkg",
        "https://b.example.test/flat/foo-b/0.9.0/foo-b.0.9.0.nupkg"
          :: repo_b :: h_ab)
  /\ List.length
       ("https://b.example.test/flat/foo-b/0.9.0/foo-b.0.9.0.nupkg"
          :: repo_b :: h_ab) = 6
  /\ (exists reqs,
         "https://b.example.test/flat/foo-b/0.9.0/foo-b.0.9.0.nupkg"
           :: repo_b :: h_ab = reqs ++ []
         /\ List.length reqs <= 2 * List.length [repo_a; repo_b] + 2)
  /\ (exists download_url reqs,
         "https://b.example.test/flat/foo-b/0.9.0/foo-b.0.9.0.nupkg"
           :: repo_b :: h_ab = download_url :: reqs ++ []
         /\ "foo-b.0.9.0.nupkg" = PosixPath.basename download_url
         /\ download_command py_str net [repo_a; repo_b] "Foo" None []
            = (Ok download_url, reqs ++ [])
         /\ Example2.urlretrieve (reqs ++ []) download_url
                                 "foo-b.0.9.0.nupkg" = Retrieved).
Proof.
  split; [|split; [|split; [|split]]].
  - apply (proj1 (commands_request_bounds py_str net Example2.urlretrieve
                    [repo_a; repo_b] "Foo" None [])
             (Ok [pkg_b0; pkg_a; pkg_b1]) h_ab).
    reflexivity.
  - reflexivity.
  - reflexivity.
  - apply (proj1 (proj2 (commands_request_bounds py_str net
                           Example2.urlretrieve [repo_a; repo_b] "Foo"
                           None []))
             (Saved "foo-b.0.9.0.nupkg")).
    reflexivity.
  - apply (proj2 (proj2 (commands_request_bounds py_str net
                           Example2.urlretrieve [repo_a; repo_b] "Foo"
                           None []))).
    reflexivity.
Defined.

(** Searching b before a finds the same three packages. *)
Lemma search_command_repository_order_witness :
  exists out' g1,
    search_command py_str net [repo_b; repo_a] "Foo" None [] = (Ok out', g1)
    /\ Permutation [pkg_b0; pkg_a; pkg_b1] out'.
Proof.
  apply (search_command_repository_order py_str net
           ltac:(reflexivity) [repo_a; repo_b] [repo_b; repo_a] "Foo" None
           [] h_ab []).
  - apply perm_swap.
  - reflexivity.
Defined.
